(** * sync_translations.py: the translation sync script

    A shallow embedding of [src/sync_translations.py] and the properties
    its specification states about it.

    The script reads two JSON documents, overwrites the labels of the
    target's [fields] mapping with those of the template's
    [formTranslations -> en-us] table, writes a backup and the updated
    document, and reports through its exit status. *)

From Stdlib Require Import List String Ascii ZArith Bool Lia SpecFloat.
Import ListNotations.
Local Open Scope string_scope.
Local Open Scope Z_scope.

(** ** Values produced by [json.load]

    Python's [json.load] yields [None], [bool], [int], [float], [str],
    [list] and [dict] objects. A [dict] keeps insertion order and has
    unique keys, so it is an association list whose keys are pairwise
    distinct (see [wf]). A [float] is a binary64 number, with the
    infinities and NaN that [json.load] accepts ([Infinity],
    [-Infinity], [NaN]). A [str] is held as the bytes of its UTF-8
    encoding. *)

Unset Elimination Schemes.
Inductive value : Type :=
| PyNone
| PyBool (b : bool)
| PyInt (z : Z)
| PyFloat (x : spec_float)
| PyStr (s : string)
| PyList (l : list value)
| PyDict (d : list (string * value)).
Set Elimination Schemes.

Section ValueInduction.
Variable P : value -> Prop.
Hypothesis HNone : P PyNone.
Hypothesis HBool : forall b, P (PyBool b).
Hypothesis HInt : forall z, P (PyInt z).
Hypothesis HFloat : forall x, P (PyFloat x).
Hypothesis HStr : forall s, P (PyStr s).
Hypothesis HList : forall l, Forall P l -> P (PyList l).
Hypothesis HDict : forall d, Forall (fun kv => P (snd kv)) d -> P (PyDict d).

Fixpoint value_ind (v : value) : P v :=
  match v with
  | PyNone => HNone
  | PyBool b => HBool b
  | PyInt z => HInt z
  | PyFloat x => HFloat x
  | PyStr s => HStr s
  | PyList l =>
      HList l ((fix go (l : list value) : Forall P l :=
                  match l with
                  | [] => Forall_nil _
                  | x :: xs => Forall_cons x (value_ind x) (go xs)
                  end) l)
  | PyDict d =>
      HDict d ((fix go (d : list (string * value))
                 : Forall (fun kv => P (snd kv)) d :=
                  match d with
                  | [] => Forall_nil _
                  | kv :: xs => Forall_cons kv (value_ind (snd kv)) (go xs)
                  end) d)
  end.
End ValueInduction.

(** *** Operations of [dict] *)

Module Dict.

(** [d.get(k)], as an option: [None] when the key is absent. *)
Fixpoint lookup {A} (d : list (string * A)) (k : string) : option A :=
  match d with
  | [] => None
  | (k', v) :: d' => if String.eqb k' k then Some v else lookup d' k
  end.

(** [k in d] *)
Definition mem {A} (d : list (string * A)) (k : string) : bool :=
  match lookup d k with Some _ => true | None => false end.

(** [d.get(k, default)] *)
Definition get {A} (d : list (string * A)) (k : string) (default : A) : A :=
  match lookup d k with Some v => v | None => default end.

(** [d[k] = v]: a present key keeps its position, a new key is
    appended. *)
Fixpoint set {A} (d : list (string * A)) (k : string) (v : A)
  : list (string * A) :=
  match d with
  | [] => [(k, v)]
  | (k', v') :: d' =>
      if String.eqb k' k then (k', v) :: d' else (k', v') :: set d' k v
  end.

Definition keys {A} (d : list (string * A)) : list string := map fst d.

End Dict.

(** *** Python's [==] on loaded values

    [None] equals only [None]; a [bool] is an [int] ([True == 1],
    [False == 0]); an [int] equals a [float] when they are the same
    number ([1 == 1.0]); two floats compare as IEEE 754 has it, so the
    two zeros are equal and NaN equals nothing, itself included; strings
    compare by content; lists element by element; dicts have equal
    length and equal values at every key, whatever the order of the
    keys. Inside a list or a dict two elements that are the same object
    are equal without being compared, and every NaN that [json.load]
    returns is one object (the constant of the decoder): two NaN are
    unequal on their own and equal as elements. *)

Definition is_nan (v : value) : bool :=
  match v with
  | PyFloat S754_nan => true
  | _ => false
  end.

(** [z == x] for an [int] and a [float]: the comparison is exact, on the
    number [m * 2^e] a finite float is. *)
Definition int_eq_float (z : Z) (x : spec_float) : bool :=
  match x with
  | S754_zero _ => Z.eqb z 0
  | S754_finite s m e =>
      let n := if s then Z.neg m else Z.pos m in
      if Z.leb 0 e then Z.eqb z (n * 2 ^ e) else Z.eqb (z * 2 ^ (- e)) n
  | S754_infinity _ | S754_nan => false
  end.

Fixpoint py_eq (a b : value) {struct a} : bool :=
  match a, b with
  | PyNone, PyNone => true
  | PyBool x, PyBool y => Bool.eqb x y
  | PyBool x, PyInt y => Z.eqb (Z.b2z x) y
  | PyInt x, PyBool y => Z.eqb x (Z.b2z y)
  | PyInt x, PyInt y => Z.eqb x y
  | PyBool x, PyFloat y => int_eq_float (Z.b2z x) y
  | PyFloat x, PyBool y => int_eq_float (Z.b2z y) x
  | PyInt x, PyFloat y => int_eq_float x y
  | PyFloat x, PyInt y => int_eq_float y x
  | PyFloat x, PyFloat y => SFeqb x y
  | PyStr x, PyStr y => String.eqb x y
  | PyList x, PyList y =>
      (fix go (x y : list value) : bool :=
         match x, y with
         | [], [] => true
         | a :: x', b :: y' =>
             (is_nan a && is_nan b || py_eq a b) && go x' y'
         | _, _ => false
         end) x y
  | PyDict x, PyDict y =>
      Nat.eqb (List.length x) (List.length y) &&
      (fix go (x : list (string * value)) : bool :=
         match x with
         | [] => true
         | (k, v) :: x' =>
             match Dict.lookup y k with
             | Some w => is_nan v && is_nan w || py_eq v w
             | None => false
             end && go x'
         end) x
  | _, _ => false
  end.

(** [a != b] *)
Definition py_ne (a b : value) : bool := negb (py_eq a b).

(** Truth value of an object, as [not x] and [if x] test it. *)
Definition truthy (v : value) : bool :=
  match v with
  | PyNone => false
  | PyBool b => b
  | PyInt z => negb (Z.eqb z 0)
  | PyFloat x => match x with S754_zero _ => false | _ => true end
  | PyStr s => negb (String.eqb s "")
  | PyList l => match l with [] => false | _ => true end
  | PyDict d => match d with [] => false | _ => true end
  end.

(** The values [json.load] can return: the keys of every dict, at any
    depth, are pairwise distinct, and every float is a binary64
    number. *)
Fixpoint distinct (ks : list string) : bool :=
  match ks with
  | [] => true
  | k :: ks' => negb (existsb (String.eqb k) ks') && distinct ks'
  end.

Fixpoint wfb (v : value) : bool :=
  match v with
  | PyFloat x => valid_binary 53 1024 x
  | PyList l =>
      (fix go (l : list value) : bool :=
         match l with [] => true | x :: xs => wfb x && go xs end) l
  | PyDict d =>
      distinct (Dict.keys d) &&
      (fix go (d : list (string * value)) : bool :=
         match d with [] => true | kv :: xs => wfb (snd kv) && go xs end) d
  | _ => true
  end.

Definition wf (v : value) : Prop := wfb v = true.

(** *** Operators and methods, with the exceptions they raise *)

Inductive exn : Type :=
| FileNotFoundError
| IsADirectoryError
| JSONDecodeError
| AttributeError
| TypeError.

Inductive result (A : Type) : Type :=
| Ok (a : A)
| Raise (e : exn).
Arguments Ok {A} a.
Arguments Raise {A} e.

(** [needle in haystack] for two strings: a substring test. *)
Fixpoint is_prefix (p s : string) : bool :=
  match p, s with
  | EmptyString, _ => true
  | String a p', String b s' => Ascii.eqb a b && is_prefix p' s'
  | String _ _, EmptyString => false
  end.

Fixpoint is_substring (p s : string) : bool :=
  is_prefix p s ||
  match s with
  | EmptyString => false
  | String _ s' => is_substring p s'
  end.

(** [o.get(key, default)]: only a dict has the method. *)
Definition py_get (o : value) (key : string) (default : value) : result value :=
  match o with
  | PyDict d => Ok (Dict.get d key default)
  | _ => Raise AttributeError
  end.

(** The code points of a string: the bytes of its encoding that are
    not continuation bytes ([10xxxxxx]). *)
Fixpoint code_points (s : string) : nat :=
  match s with
  | EmptyString => O
  | String (Ascii _ _ _ _ _ _ b6 b7) s' =>
      ((if b7 && negb b6 then 0 else 1) + code_points s')%nat
  end.

(** [len(o)] *)
Definition py_len (o : value) : result nat :=
  match o with
  | PyStr s => Ok (code_points s)
  | PyList l => Ok (List.length l)
  | PyDict d => Ok (List.length d)
  | _ => Raise TypeError
  end.

(** [o.items()] *)
Definition py_items (o : value) : result (list (string * value)) :=
  match o with
  | PyDict d => Ok d
  | _ => Raise AttributeError
  end.

(** [key in o] for a string [key]: a key of a dict, an element of a
    list, a substring of a string; the other objects are not
    containers. *)
Definition py_contains (o : value) (key : string) : result bool :=
  match o with
  | PyDict d => Ok (Dict.mem d key)
  | PyList l => Ok (existsb (fun x => py_eq x (PyStr key)) l)
  | PyStr s => Ok (is_substring key s)
  | _ => Raise TypeError
  end.

(** ** Paths, as [pathlib.Path] has them on POSIX

    A path is its root and its components. [Path s] parses a string the
    way [pathlib] does: empty and [.] components are dropped, [..] is
    kept. Two distinct paths name two distinct files: links and [..]
    are not resolved. *)

Module Pathlib.

Inductive anchor : Type := Relative | Root | Root2.

Record path : Type := mkpath { root : anchor; parts : list string }.

Definition anchor_eqb (a b : anchor) : bool :=
  match a, b with
  | Relative, Relative | Root, Root | Root2, Root2 => true
  | _, _ => false
  end.

Fixpoint parts_eqb (x y : list string) : bool :=
  match x, y with
  | [], [] => true
  | a :: x', b :: y' => String.eqb a b && parts_eqb x' y'
  | _, _ => false
  end.

Definition path_eqb (p q : path) : bool :=
  anchor_eqb (root p) (root q) && parts_eqb (parts p) (parts q).

(** [s.split('/')] *)
Fixpoint split_sep (s : string) : list string :=
  match s with
  | EmptyString => [EmptyString]
  | String c s' =>
      if Ascii.eqb c "/" then EmptyString :: split_sep s'
      else match split_sep s' with
           | [] => [String c EmptyString]
           | p :: ps => String c p :: ps
           end
  end.

(** [posixpath.splitroot]: one slash or three and more make the root
    [/], exactly two make the root [//]. *)
Definition anchor_of (s : string) : anchor :=
  if is_prefix "///" s then Root
  else if is_prefix "//" s then Root2
  else if is_prefix "/" s then Root
  else Relative.

Definition keep_part (x : string) : bool :=
  negb (String.eqb x "") && negb (String.eqb x ".").

Definition Path (s : string) : path :=
  mkpath (anchor_of s) (filter keep_part (split_sep s)).

(** [p / s] *)
Definition joinpath (p : path) (s : string) : path :=
  let q := Path s in
  match root q with
  | Relative => mkpath (root p) (parts p ++ parts q)
  | _ => q
  end.

(** [p.name]: the last component, empty when there is none. *)
Definition name (p : path) : string := last (parts p) "".

(** [p.parent] *)
Definition parent (p : path) : path :=
  mkpath (root p) (removelast (parts p)).

(** [s.rfind(c)], [None] for [-1]. *)
Fixpoint rfind (c : ascii) (s : string) : option nat :=
  match s with
  | EmptyString => None
  | String a s' =>
      match rfind c s' with
      | Some i => Some (S i)
      | None => if Ascii.eqb a c then Some O else None
      end
  end.

(** [s[:i]] and [s[i:]] *)
Fixpoint take (i : nat) (s : string) : string :=
  match i, s with
  | S i', String a s' => String a (take i' s')
  | _, _ => EmptyString
  end.

Fixpoint drop (i : nat) (s : string) : string :=
  match i, s with
  | S i', String _ s' => drop i' s'
  | _, _ => s
  end.

(** The index at which [name] splits into stem and suffix: that of
    its last dot, when the dot is neither the first nor the last
    character ([0 < i < len(name) - 1]). *)
Definition suffix_index (nm : string) : option nat :=
  match rfind "." nm with
  | Some i =>
      if (Nat.ltb 0 i && Nat.ltb (S i) (String.length nm))%bool
      then Some i else None
  | None => None
  end.

(** [p.suffix] *)
Definition suffix (p : path) : string :=
  match suffix_index (name p) with
  | Some i => drop i (name p)
  | None => ""
  end.

(** [p.stem] *)
Definition stem (p : path) : string :=
  match suffix_index (name p) with
  | Some i => take i (name p)
  | None => name p
  end.

Fixpoint has_char (c : ascii) (s : string) : bool :=
  match s with
  | EmptyString => false
  | String a s' => Ascii.eqb a c || has_char c s'
  end.

(** The paths [Path] builds: no component is empty, is [.] or holds a
    separator. *)
Definition part_ok (x : string) : bool :=
  keep_part x && negb (has_char "/" x).

Definition path_ok (p : path) : bool := forallb part_ok (parts p).

End Pathlib.
Import Pathlib.

(** ** The script *)

(** An entry of [updates]: [{'field': ..., 'old': ..., 'new': ...}]. *)
Record update : Type := mkupdate { field : string; old : value; new : value }.

(** What the script prints, one constructor per message. *)
Inductive event : Type :=
| Loading_webform (p : path)
| Loading_translations (p : path)
| Error_no_en_us
| Found_labels (n : nat)
| Updating_fields (ups : list update)
| Creating_backup (p : path)
| Writing_updates (p : path)
| Ok_updated (n : nat)
| Ok_in_sync
| Usage
| Webform_not_found (p : path)
| Translations_not_found (p : path)
| Error_and_traceback (e : exn).

(** The body of the [for] loop (lines 42 to 55), run on the entries of
    [en_us_translations] in order. [translations] is the working copy,
    mutated in place by [translations['fields'][field_key] = label_value];
    here the new copy is passed on. *)
Definition sync_field (translations : value) (updates : list update)
    (field_key : string) (label_value : value)
  : result (value * list update) :=
  match translations with
  | PyDict t =>
      (* translations.get('fields', {}) *)
      let fields := Dict.get t "fields" (PyDict []) in
      match py_contains fields field_key with
      | Raise e => Raise e
      | Ok false => Ok (translations, updates)
      | Ok true =>
          match fields with
          | PyDict f =>
              (* translations['fields'].get(field_key) *)
              let current_value := Dict.get f field_key PyNone in
              if py_ne current_value label_value then
                Ok (PyDict (Dict.set t "fields"
                              (PyDict (Dict.set f field_key label_value))),
                    (updates ++
                     [mkupdate field_key current_value label_value])%list)
              else Ok (translations, updates)
          | _ => Raise AttributeError
          end
      end
  | _ => Raise AttributeError
  end.

Fixpoint sync_fields (items : list (string * value)) (translations : value)
    (updates : list update) : result (value * list update) :=
  match items with
  | [] => Ok (translations, updates)
  | (field_key, label_value) :: items' =>
      match sync_field translations updates field_key label_value with
      | Raise e => Raise e
      | Ok (translations', updates') => sync_fields items' translations' updates'
      end
  end.

(** The authoritative table of a template (lines 31 and 32):
    [webform.get('formTranslations', {}).get('en-us', {})]. *)
Definition en_us_of (webform : value) : result value :=
  match py_get webform "formTranslations" (PyDict []) with
  | Ok form_translations => py_get form_translations "en-us" (PyDict [])
  | Raise e => Raise e
  end.

(** The [fields] mapping of a document, when it has one. *)
Definition fields_of (doc : value) : option (list (string * value)) :=
  match doc with
  | PyDict t =>
      match Dict.lookup t "fields" with
      | Some (PyDict f) => Some f
      | _ => None
      end
  | _ => None
  end.

(** A top-level section of a document. *)
Definition section_of (doc : value) (k : string) : option value :=
  match doc with
  | PyDict t => Dict.lookup t k
  | _ => None
  end.

(** The names of the top-level sections of a document, in order. *)
Definition sections_of (doc : value) : list string :=
  match doc with
  | PyDict t => Dict.keys t
  | _ => []
  end.

Section Script.

(** The text of a file and the codec of the [json] module: [json.load]
    on a text ([None] when it does not parse), and
    [json.dump(_, indent=2, ensure_ascii=False)]. *)
Variable text : Type.
Variable empty_text : text.
Variable json_load : text -> option value.
Variable json_dump : value -> text.

Inductive node : Type :=
| File (t : text)
| Dir.

(** The file system, and the state of a run: the files and what was
    printed so far. *)
Definition fs : Type := path -> option node.

Record world : Type := mkworld { files : fs; console : list event }.

Definition write (f : fs) (p : path) (t : text) : fs :=
  fun q => if path_eqb q p then Some (File t) else f q.

Definition M (A : Type) : Type := world -> result A * world.

Definition ret {A} (a : A) : M A := fun w => (Ok a, w).

Definition raise {A} (e : exn) : M A := fun w => (Raise e, w).

Definition bind {A B} (m : M A) (k : A -> M B) : M B :=
  fun w =>
    match m w with
    | (Ok a, w') => k a w'
    | (Raise e, w') => (Raise e, w')
    end.

Definition lift {A} (r : result A) : M A := fun w => (r, w).

Notation "x <- m ;; k" := (bind m (fun x => k))
  (at level 61, m at next level, right associativity).
Notation "m ;;; k" := (bind m (fun _ => k))
  (at level 61, right associativity).

Definition print (e : event) : M unit :=
  fun w => (Ok tt, mkworld (files w) (console w ++ [e])%list).

(** [json.load(open(p, 'r', encoding='utf-8'))] *)
Definition load_file (p : path) : M value :=
  fun w =>
    match files w p with
    | None => (Raise FileNotFoundError, w)
    | Some Dir => (Raise IsADirectoryError, w)
    | Some (File t) =>
        match json_load t with
        | Some v => (Ok v, w)
        | None => (Raise JSONDecodeError, w)
        end
    end.

(** [open(p, 'w', encoding='utf-8')]: the file is created or
    truncated. *)
Definition open_w (p : path) : M unit :=
  fun w =>
    match files w p with
    | Some Dir => (Raise IsADirectoryError, w)
    | _ => (Ok tt, mkworld (write (files w) p empty_text) (console w))
    end.

(** [json.dump(v, f, indent=2, ensure_ascii=False)] on the file opened
    at [p], closed at the end of the [with] block. The strings of [v]
    are taken to encode as UTF-8, so that the write goes through. *)
Definition dump_file (v : value) (p : path) : M unit :=
  fun w => (Ok tt, mkworld (write (files w) p (json_dump v)) (console w)).

(** The document a path holds: what [json.load] makes of the file
    there, if it is a file and parses. *)
Definition document (f : fs) (p : path) : option value :=
  match f p with
  | Some (File t) => json_load t
  | _ => None
  end.

(** [translations_path.parent /
     f"{translations_path.stem}.backup{translations_path.suffix}"] *)
Definition backup_path (translations_path : path) : path :=
  joinpath (parent translations_path)
    (stem translations_path ++ ".backup" ++ suffix translations_path)%string.

(** The files the write phase leaves (lines 71 to 77): the backup is
    opened and the dump of [original] written to it, then the target is
    opened and the dump of the working copy written to it. *)
Definition written (f : fs) (translations_path : path)
    (original translations : value) : fs :=
  write
    (write
       (write (write f (backup_path translations_path) empty_text)
          (backup_path translations_path) (json_dump original))
       translations_path empty_text)
    translations_path (json_dump translations).

Definition sync_translations (webform_path translations_path : path) : M Z :=
  print (Loading_webform webform_path) ;;;
  webform <- load_file webform_path ;;
  print (Loading_translations translations_path) ;;;
  translations <- load_file translations_path ;;
  form_translations <- lift (py_get webform "formTranslations" (PyDict [])) ;;
  en_us_translations <- lift (py_get form_translations "en-us" (PyDict [])) ;;
  if negb (truthy en_us_translations) then
    print Error_no_en_us ;;;
    ret (-1)
  else
    n <- lift (py_len en_us_translations) ;;
    print (Found_labels n) ;;;
    items <- lift (py_items en_us_translations) ;;
    synced <- lift (sync_fields items translations []) ;;
    let '(translations, updates) := synced in
    match updates with
    | _ :: _ =>
        print (Updating_fields updates) ;;;
        print (Creating_backup (backup_path translations_path)) ;;;
        open_w (backup_path translations_path) ;;;
        original <- load_file translations_path ;;
        dump_file original (backup_path translations_path) ;;;
        print (Writing_updates translations_path) ;;;
        open_w translations_path ;;;
        dump_file translations translations_path ;;;
        print (Ok_updated (List.length updates)) ;;;
        ret (Z.of_nat (List.length updates))
    | [] =>
        print Ok_in_sync ;;;
        ret (Z.of_nat (List.length updates))
    end.

(** [path.exists()] *)
Definition exists_ (f : fs) (p : path) : bool :=
  match f p with Some _ => true | None => false end.

(** [main], on [sys.argv]; the result is the status [sys.exit] is
    called with. [sys.exit] raises [SystemExit], which
    [except Exception] does not catch. *)
Definition main (argv : list string) (w : world) : Z * world :=
  match argv with
  | [_; arg1; arg2] =>
      let webform_path := Path arg1 in
      let translations_path := Path arg2 in
      if negb (exists_ (files w) webform_path) then
        (1, mkworld (files w) (console w ++ [Webform_not_found webform_path])%list)
      else if negb (exists_ (files w) translations_path) then
        (1, mkworld (files w)
              (console w ++ [Translations_not_found translations_path])%list)
      else
        match sync_translations webform_path translations_path w with
        | (Ok updates, w') => (if Z.geb updates 0 then 0 else 1, w')
        | (Raise e, w') =>
            (1, mkworld (files w') (console w' ++ [Error_and_traceback e])%list)
        end
  | _ => (1, mkworld (files w) (console w ++ [Usage])%list)
  end.

End Script.

Arguments File {text} t.
Arguments Dir {text}.
Arguments mkworld {text} files console.
Arguments files {text} w.
Arguments console {text} w.
Arguments write {text} f p t.
Arguments exists_ {text} f p.
Arguments document {text} json_load f p.

(** ** A codec to run the script on

    The text of a document is the document itself, and a text that holds
    no well-formed document does not parse. It satisfies the two laws
    the proofs ask of [json.load] and [json.dump] (see [CodecLaws]), and
    the examples below run on it. *)

Module Plain.

Definition text : Type := option value.

Definition empty_text : text := None.

Definition json_load (t : text) : option value :=
  match t with
  | Some v => if wfb v then Some v else None
  | None => None
  end.

Definition json_dump (v : value) : text := Some v.

(** The file system holding the given files and nothing else. *)
Fixpoint disk (l : list (path * value)) : fs text :=
  match l with
  | [] => fun _ => None
  | (p, v) :: l' => write (disk l') p (json_dump v)
  end.

Definition boot (l : list (path * value)) : world text :=
  mkworld (disk l) [].

Definition run (webform_path translations_path : path) (w : world text) :=
  sync_translations text empty_text json_load json_dump
    webform_path translations_path w.

Definition run_main (argv : list string) (w : world text) :=
  main text empty_text json_load json_dump argv w.

End Plain.

(** ** Documents to run the script on *)

Module Scenario.

Definition template_path : path := Path "webform-template-123.json".

Definition target_path : path := Path "field_translations.json".

(** The example of the specification: one label differs, one agrees,
    one field has no label; the target has a second section. *)
Definition template : value :=
  PyDict [("formTranslations",
           PyDict [("en-us",
                    PyDict [("name", PyStr "Full Name");
                            ("email", PyStr "Email Address")])])].

Definition target : value :=
  PyDict [("fields",
           PyDict [("name", PyStr "Full Nm");
                   ("email", PyStr "Email Address");
                   ("phone", PyStr "Phone")]);
          ("options", PyDict [("yes", PyStr "Yes")])].

Definition start : world Plain.text :=
  Plain.boot [(template_path, template); (target_path, target)].

(** The state the first run leaves. *)
Definition after : world Plain.text :=
  snd (Plain.run template_path target_path start).

(** A target whose labels agree with the template. *)
Definition target_in_sync : value :=
  PyDict [("fields",
           PyDict [("name", PyStr "Full Name");
                   ("email", PyStr "Email Address")])].

Definition start_in_sync : world Plain.text :=
  Plain.boot [(template_path, template); (target_path, target_in_sync)].

(** A template whose [formTranslations] has no [en-us] entry. *)
Definition template_no_en_us : value :=
  PyDict [("formTranslations", PyDict [("fr-fr", PyDict [])])].

Definition start_no_en_us : world Plain.text :=
  Plain.boot [(template_path, template_no_en_us); (target_path, target)].

(** A target without a [fields] key. *)
Definition target_no_fields : value :=
  PyDict [("options", PyDict [("yes", PyStr "Yes")])].

Definition start_no_fields : world Plain.text :=
  Plain.boot [(template_path, template); (target_path, target_no_fields)].

(** A label that is the number 1, against a field that is [true]. *)
Definition template_one : value :=
  PyDict [("formTranslations", PyDict [("en-us", PyDict [("a", PyInt 1)])])].

Definition target_true : value :=
  PyDict [("fields", PyDict [("a", PyBool true)])].

Definition start_true : world Plain.text :=
  Plain.boot [(template_path, template_one); (target_path, target_true)].

(** A label that is NaN, which [json.load] accepts. *)
Definition template_nan : value :=
  PyDict [("formTranslations",
           PyDict [("en-us", PyDict [("a", PyFloat S754_nan)])])].

Definition target_a : value :=
  PyDict [("fields", PyDict [("a", PyStr "x")])].

Definition start_nan : world Plain.text :=
  Plain.boot [(template_path, template_nan); (target_path, target_a)].

Definition after_nan : world Plain.text :=
  snd (Plain.run template_path target_path start_nan).

(** A template at the path the backup of the target goes to, and a
    target that has labels of its own. *)
Definition template_at_backup : path := Path "field_translations.backup.json".

Definition target_with_labels : value :=
  PyDict [("fields", PyDict [("name", PyStr "Full Nm")]);
          ("formTranslations",
           PyDict [("en-us", PyDict [("name", PyStr "Name")])])].

Definition start_at_backup : world Plain.text :=
  Plain.boot [(template_at_backup, template);
              (target_path, target_with_labels)].

(** Documents on which the script raises. *)
Definition target_fields_list : value :=
  PyDict [("fields", PyList [PyStr "name"])].

Definition target_list : value := PyList [PyStr "name"].

Definition template_en_us_list : value :=
  PyDict [("formTranslations", PyDict [("en-us", PyList [PyStr "name"])])].

Definition start_with (template target : value) : world Plain.text :=
  Plain.boot [(template_path, template); (target_path, target)].

(** The backup path is taken by a directory. *)
Definition start_backup_dir : world Plain.text :=
  mkworld
    (fun q => if path_eqb q (backup_path target_path) then Some Dir
              else files start q)
    [].

End Scenario.

(** * Properties *)

(** ** Dicts *)

Module DictFacts.
Import Dict.

Lemma lookup_set_same {A} (d : list (string * A)) k v :
  lookup (set d k v) k = Some v.
Proof.
  induction d as [|[k' v'] d IH]; simpl.
  - now rewrite String.eqb_refl.
  - destruct (String.eqb k' k) eqn:E; simpl; rewrite E; auto.
Qed.

Lemma lookup_set_other {A} (d : list (string * A)) k k' v :
  k <> k' -> lookup (set d k v) k' = lookup d k'.
Proof.
  intros Hne. induction d as [|[k0 v0] d IH]; simpl.
  - destruct (String.eqb k k') eqn:E; auto.
    apply String.eqb_eq in E. contradiction.
  - destruct (String.eqb k0 k) eqn:E; simpl.
    + apply String.eqb_eq in E. subst k0.
      destruct (String.eqb k k') eqn:E'; auto.
      apply String.eqb_eq in E'. contradiction.
    + now rewrite IH.
Qed.

Lemma set_set {A} (d : list (string * A)) k v v' :
  set (set d k v) k v' = set d k v'.
Proof.
  induction d as [|[k0 v0] d IH]; simpl.
  - now rewrite String.eqb_refl.
  - destruct (String.eqb k0 k) eqn:E; simpl; rewrite E; auto.
    now rewrite IH.
Qed.

Lemma set_lookup {A} (d : list (string * A)) k v :
  lookup d k = Some v -> set d k v = d.
Proof.
  induction d as [|[k0 v0] d IH]; simpl; intros H.
  - discriminate.
  - destruct (String.eqb k0 k) eqn:E.
    + now inversion H.
    + now rewrite IH.
Qed.

Lemma keys_set_present {A} (d : list (string * A)) k v :
  mem d k = true -> keys (set d k v) = keys d.
Proof.
  unfold mem, keys. induction d as [|[k0 v0] d IH]; simpl; intros H.
  - discriminate.
  - destruct (String.eqb k0 k) eqn:E; simpl; auto.
    now rewrite IH.
Qed.

Lemma mem_lookup {A} (d : list (string * A)) k :
  mem d k = true <-> exists v, lookup d k = Some v.
Proof.
  unfold mem. destruct (lookup d k); split; intros H; eauto.
  - discriminate.
  - destruct H; discriminate.
Qed.

Lemma mem_In {A} (d : list (string * A)) k :
  mem d k = true <-> In k (keys d).
Proof.
  unfold mem, keys. induction d as [|[k0 v0] d IH]; simpl.
  - split; [discriminate | tauto].
  - destruct (String.eqb k0 k) eqn:E.
    + apply String.eqb_eq in E. tauto.
    + apply String.eqb_neq in E. rewrite IH. tauto.
Qed.

Lemma lookup_In {A} (d : list (string * A)) k v :
  lookup d k = Some v -> In (k, v) d.
Proof.
  induction d as [|[k0 v0] d IH]; simpl; intros H.
  - discriminate.
  - destruct (String.eqb k0 k) eqn:E.
    + apply String.eqb_eq in E. inversion H. subst. now left.
    + right. auto.
Qed.

Lemma In_lookup {A} (d : list (string * A)) k v :
  NoDup (keys d) -> In (k, v) d -> lookup d k = Some v.
Proof.
  unfold keys. induction d as [|[k0 v0] d IH]; simpl; intros Hnd Hin.
  - contradiction.
  - inversion Hnd as [|? ? Hnotin Hnd']; subst.
    destruct Hin as [Heq | Hin].
    + inversion Heq; subst. now rewrite String.eqb_refl.
    + destruct (String.eqb k0 k) eqn:E.
      * apply String.eqb_eq in E. subst k0.
        exfalso. apply Hnotin. apply in_map_iff. now exists (k, v).
      * auto.
Qed.

Lemma get_mem {A} (d : list (string * A)) k dflt :
  mem d k = true -> lookup d k = Some (get d k dflt).
Proof.
  unfold mem, get. destruct (lookup d k); [reflexivity | discriminate].
Qed.

End DictFacts.

(** ** Well-formed values and Python's equality *)

Module ValueFacts.
Import Dict DictFacts.

Lemma distinct_NoDup (ks : list string) : distinct ks = true <-> NoDup ks.
Proof.
  induction ks as [|k ks IH]; simpl.
  - split; [constructor | reflexivity].
  - rewrite andb_true_iff, negb_true_iff, IH. split.
    + intros [Hk Hnd]. constructor; auto.
      intros Hin. assert (existsb (String.eqb k) ks = true) as E.
      { apply existsb_exists. exists k. split; auto. apply String.eqb_refl. }
      congruence.
    + intros Hnd. inversion Hnd as [|? ? Hnotin Hnd']; subst. split; auto.
      destruct (existsb (String.eqb k) ks) eqn:E; auto.
      apply existsb_exists in E. destruct E as [x [Hin Hx]].
      apply String.eqb_eq in Hx. subst x. contradiction.
Qed.

Lemma wf_list (l : list value) : wf (PyList l) <-> Forall wf l.
Proof.
  unfold wf. simpl. induction l as [|x l IH].
  - split; auto.
  - rewrite andb_true_iff, IH. split.
    + intros [Hx Hl]. now constructor.
    + intros H. inversion H. auto.
Qed.

Lemma wf_dict (d : list (string * value)) :
  wf (PyDict d) <-> NoDup (keys d) /\ Forall (fun kv => wf (snd kv)) d.
Proof.
  unfold wf. simpl. rewrite andb_true_iff, distinct_NoDup.
  apply and_iff_compat_l.
  induction d as [|kv d IH].
  - split; auto.
  - rewrite andb_true_iff, IH. split.
    + intros [Hx Hl]. now constructor.
    + intros H. inversion H. auto.
Qed.

Lemma wf_lookup d k v : wf (PyDict d) -> lookup d k = Some v -> wf v.
Proof.
  intros Hwf Hl. apply wf_dict in Hwf. destruct Hwf as [_ Hall].
  apply lookup_In in Hl. rewrite Forall_forall in Hall.
  apply (Hall (k, v) Hl).
Qed.

Lemma wf_get d k dflt : wf (PyDict d) -> wf dflt -> wf (get d k dflt).
Proof.
  intros Hwf Hd. unfold get. destruct (lookup d k) eqn:E; auto.
  eapply wf_lookup; eauto.
Qed.

Lemma keys_set_In {A} (d : list (string * A)) k v k' :
  In k' (keys (set d k v)) -> k' = k \/ In k' (keys d).
Proof.
  unfold keys. induction d as [|[k0 v0] d IH]; simpl.
  - intros [H | []]. auto.
  - destruct (String.eqb k0 k) eqn:E; simpl; intros [H | H]; auto.
    destruct (IH H); auto.
Qed.

Lemma NoDup_keys_set {A} (d : list (string * A)) k v :
  NoDup (keys d) -> NoDup (keys (set d k v)).
Proof.
  induction d as [|[k0 v0] d IH]; simpl; intros Hnd.
  - constructor; [intros [] | constructor].
  - inversion Hnd as [|? ? Hnotin Hnd']; subst.
    destruct (String.eqb k0 k) eqn:E; simpl.
    + now constructor.
    + constructor; auto. intros Hin.
      apply keys_set_In in Hin. destruct Hin as [Heq | Hin]; auto.
      subst k0. now rewrite String.eqb_refl in E.
Qed.

Lemma Forall_set {A} (P : string * A -> Prop) d k v :
  Forall P d -> (forall k', P (k', v)) -> Forall P (set d k v).
Proof.
  intros Hall Hv. induction Hall as [|[k0 v0] d Hx Hd IH]; simpl.
  - constructor; auto.
  - destruct (String.eqb k0 k); constructor; auto.
Qed.

Lemma wf_set d k v : wf (PyDict d) -> wf v -> wf (PyDict (set d k v)).
Proof.
  rewrite !wf_dict. intros [Hnd Hall] Hv. split.
  - now apply NoDup_keys_set.
  - apply Forall_set; auto.
Qed.

Lemma SFeqb_refl (x : spec_float) : x <> S754_nan -> SFeqb x x = true.
Proof.
  unfold SFeqb. destruct x as [s | s | | s m e]; simpl; intros H.
  - reflexivity.
  - now destruct s.
  - contradiction.
  - rewrite Z.compare_refl.
    change (Pos.compare_cont Eq m m) with (Pos.compare m m).
    rewrite Pos.compare_refl. now destruct s.
Qed.

(** A well-formed value other than NaN equals itself. *)
Lemma py_eq_refl (v : value) :
  wf v -> is_nan v = false -> py_eq v v = true.
Proof.
  induction v as [| b | z | x | s | l IH | d IH] using value_ind;
    intros Hwf Hnf.
  - reflexivity.
  - apply Bool.eqb_reflx.
  - apply Z.eqb_refl.
  - simpl. apply SFeqb_refl. intros ->. discriminate.
  - apply String.eqb_refl.
  - apply wf_list in Hwf. simpl. clear Hnf.
    induction l as [|x l IHl]; auto.
    inversion IH; inversion Hwf; subst.
    apply andb_true_iff. split; auto.
    destruct (is_nan x) eqn:N; simpl; auto.
  - apply wf_dict in Hwf. destruct Hwf as [Hnd Hall]. simpl. clear Hnf.
    rewrite Nat.eqb_refl. simpl.
    assert (forall x, incl x d ->
      (fix go (x : list (string * value)) : bool :=
         match x with
         | [] => true
         | (k, v) :: x' =>
             match lookup d k with
             | Some w => is_nan v && is_nan w || py_eq v w
             | None => false
             end && go x'
         end) x = true) as Hgo.
    { induction x as [|[k v] x IHx]; intros Hincl; auto.
      assert (In (k, v) d) as Hin by (apply Hincl; now left).
      rewrite (In_lookup d k v Hnd Hin).
      rewrite Forall_forall in IH, Hall.
      pose proof (IH (k, v) Hin (Hall (k, v) Hin)) as Hv.
      simpl in Hv.
      destruct (is_nan v) eqn:N; simpl.
      - apply IHx. intros y Hy. apply Hincl. now right.
      - rewrite Hv by reflexivity. simpl.
        apply IHx. intros y Hy. apply Hincl. now right. }
    apply Hgo. apply incl_refl.
Qed.

(** Against a string, [==] holds for that very string only. *)
Lemma py_eq_str_r (a : value) (s : string) :
  py_eq a (PyStr s) = true -> a = PyStr s.
Proof.
  destruct a; simpl; try discriminate.
  intros H. apply String.eqb_eq in H. now subst.
Qed.

Lemma py_eq_str_l (b : value) (s : string) :
  py_eq (PyStr s) b = true -> PyStr s = b.
Proof.
  destruct b; simpl; try discriminate.
  intros H. apply String.eqb_eq in H. now subst.
Qed.

Lemma py_eq_none_r (a : value) : py_eq a PyNone = true -> a = PyNone.
Proof.
  destruct a; simpl; try discriminate; auto.
Qed.

End ValueFacts.

(** ** Paths *)

Module PathFacts.

Lemma parts_eqb_eq (x y : list string) : parts_eqb x y = true <-> x = y.
Proof.
  revert y. induction x as [|a x IH]; destruct y as [|b y]; simpl;
    try (split; [discriminate | intros H; inversion H]); try tauto.
  rewrite andb_true_iff, String.eqb_eq, IH. split.
  - intros [-> ->]. reflexivity.
  - intros H. inversion H. auto.
Qed.

Lemma path_eqb_eq (p q : path) : path_eqb p q = true <-> p = q.
Proof.
  destruct p as [rp pp], q as [rq pq]. unfold path_eqb. simpl.
  rewrite andb_true_iff, parts_eqb_eq. split.
  - intros [Hr ->]. destruct rp, rq; try discriminate; reflexivity.
  - intros H. inversion H. subst. split; auto. now destruct rq.
Qed.

Lemma path_eqb_refl (p : path) : path_eqb p p = true.
Proof. now apply path_eqb_eq. Qed.

Lemma path_eqb_neq (p q : path) : path_eqb p q = false <-> p <> q.
Proof.
  destruct (path_eqb p q) eqn:E.
  - apply path_eqb_eq in E. split; [discriminate | contradiction].
  - split; auto. intros _ H. apply path_eqb_eq in H. congruence.
Qed.

Lemma length_app (a b : string) :
  String.length (a ++ b) = (String.length a + String.length b)%nat.
Proof. induction a; simpl; auto. Qed.

Lemma has_char_app c (a b : string) :
  has_char c (a ++ b) = has_char c a || has_char c b.
Proof.
  induction a as [|x a IH]; simpl; auto.
  now rewrite IH, orb_assoc.
Qed.

Lemma take_drop (i : nat) (s : string) : (take i s ++ drop i s)%string = s.
Proof.
  revert s. induction i as [|i IH]; destruct s; simpl; auto.
  now rewrite IH.
Qed.

Lemma has_char_take c i s : has_char c s = false -> has_char c (take i s) = false.
Proof.
  intros H. rewrite <- (take_drop i s), has_char_app in H.
  now apply orb_false_iff in H.
Qed.

Lemma has_char_drop c i s : has_char c s = false -> has_char c (drop i s) = false.
Proof.
  intros H. rewrite <- (take_drop i s), has_char_app in H.
  now apply orb_false_iff in H.
Qed.

(** The last occurrence: what follows it holds no further one. *)
Lemma rfind_drop c s i :
  rfind c s = Some i ->
  exists rest, drop i s = String c rest /\ has_char c rest = false /\
               String.length s = (i + 1 + String.length rest)%nat.
Proof.
  revert i. induction s as [|a s IH]; simpl; intros i H.
  - discriminate.
  - destruct (rfind c s) as [j|] eqn:E.
    + inversion H; subst. destruct (IH j eq_refl) as [rest [Hd [Hc Hl]]].
      exists rest. simpl. repeat split; auto; lia.
    + destruct (Ascii.eqb a c) eqn:Ea; [|discriminate].
      inversion H; subst. apply Ascii.eqb_eq in Ea. subst a.
      exists s. simpl. repeat split; auto.
      clear IH H. induction s as [|b s IHs]; simpl in *; auto.
      destruct (rfind c s) eqn:E'; [discriminate|].
      destruct (Ascii.eqb b c); [discriminate|]. simpl. auto.
Qed.

Lemma stem_suffix (p : path) : (stem p ++ suffix p)%string = name p.
Proof.
  unfold stem, suffix. destruct (suffix_index (name p)).
  - apply take_drop.
  - induction (name p); simpl; congruence.
Qed.

(** The suffix is empty, or a dot followed by a non-empty extension that
    holds no dot. *)
Lemma suffix_shape (p : path) :
  suffix p = "" \/
  exists ext, suffix p = String "." ext /\ ext <> "" /\ has_char "." ext = false.
Proof.
  unfold suffix, suffix_index.
  destruct (rfind "." (name p)) as [i|] eqn:E; auto.
  destruct (Nat.ltb 0 i && Nat.ltb (S i) (String.length (name p)))%bool eqn:C;
    auto.
  right. destruct (rfind_drop _ _ _ E) as [rest [Hd [Hc Hl]]].
  exists rest. repeat split; auto.
  intros ->. simpl in Hl. apply andb_true_iff in C. destruct C as [_ C].
  apply Nat.ltb_lt in C. lia.
Qed.

Lemma split_sep_plain (s : string) :
  has_char "/" s = false -> split_sep s = [s].
Proof.
  induction s as [|a s IH]; simpl; auto.
  intros H. apply orb_false_iff in H. destruct H as [Ha Hs].
  rewrite Ha, (IH Hs). reflexivity.
Qed.

Lemma split_sep_parts (s : string) :
  Forall (fun x => has_char "/" x = false) (split_sep s).
Proof.
  induction s as [|a s IH]; simpl.
  - repeat constructor.
  - destruct (Ascii.eqb a "/") eqn:Ea.
    + constructor; auto.
    + destruct (split_sep s) as [|x xs]; inversion IH; subst;
        constructor; simpl; rewrite ?Ea; auto.
Qed.

(** [Path] builds well-formed paths. *)
Lemma Path_ok (s : string) : path_ok (Path s) = true.
Proof.
  unfold path_ok, Path. simpl. apply forallb_forall. intros x Hx.
  apply filter_In in Hx. destruct Hx as [Hin Hk].
  unfold part_ok. rewrite Hk. simpl.
  pose proof (split_sep_parts s) as H. rewrite Forall_forall in H.
  now rewrite (H x Hin).
Qed.

Lemma is_prefix_has_char c (p s : string) :
  is_prefix (String c p) s = true -> has_char c s = true.
Proof.
  destruct s as [|a s]; [discriminate|].
  change (Ascii.eqb c a && is_prefix p s = true ->
          Ascii.eqb a c || has_char c s = true).
  intros H. apply andb_true_iff in H. destruct H as [H _].
  now rewrite Ascii.eqb_sym, H.
Qed.

Lemma Path_single (s : string) :
  part_ok s = true -> Path s = mkpath Relative [s].
Proof.
  unfold part_ok. intros H. apply andb_true_iff in H. destruct H as [Hk Hs].
  apply negb_true_iff in Hs.
  unfold Path. rewrite (split_sep_plain s Hs). simpl. rewrite Hk.
  f_equal. unfold anchor_of.
  destruct (is_prefix "///" s) eqn:E3;
    [apply is_prefix_has_char in E3; congruence|].
  destruct (is_prefix "//" s) eqn:E2;
    [apply is_prefix_has_char in E2; congruence|].
  destruct (is_prefix "/" s) eqn:E1;
    [apply is_prefix_has_char in E1; congruence|].
  reflexivity.
Qed.

Lemma name_plain (p : path) :
  path_ok p = true -> has_char "/" (name p) = false.
Proof.
  unfold path_ok, name. destruct p as [r ps]. simpl. intros H.
  destruct ps as [|x ps] using rev_ind; auto.
  rewrite last_last. rewrite forallb_app in H.
  apply andb_true_iff in H. destruct H as [_ H]. simpl in H.
  unfold part_ok in H. rewrite andb_true_r in H.
  apply andb_true_iff in H. destruct H as [_ H].
  now apply negb_true_iff in H.
Qed.

Lemma backup_name_ok (p : path) :
  path_ok p = true -> part_ok (stem p ++ ".backup" ++ suffix p) = true.
Proof.
  intros Hok. pose proof (name_plain p Hok) as Hn.
  rewrite <- stem_suffix, has_char_app in Hn.
  apply orb_false_iff in Hn. destruct Hn as [H1 H2].
  unfold part_ok, keep_part.
  rewrite !has_char_app, H1, H2. simpl.
  rewrite !andb_true_r. apply andb_true_iff.
  split; apply negb_true_iff; apply String.eqb_neq; intros E;
    apply (f_equal String.length) in E; rewrite !length_app in E;
    simpl in E; lia.
Qed.

(** The backup path: the components of the target's directory, then the
    name with [.backup] between stem and suffix. *)
Lemma backup_path_parts (p : path) :
  path_ok p = true ->
  backup_path p =
  mkpath (root p)
    (removelast (parts p) ++ [(stem p ++ ".backup" ++ suffix p)%string])%list.
Proof.
  intros Hok. unfold backup_path, joinpath.
  now rewrite (Path_single _ (backup_name_ok p Hok)).
Qed.

Lemma backup_path_parent (p : path) :
  path_ok p = true -> parent (backup_path p) = parent p.
Proof.
  intros Hok. rewrite (backup_path_parts p Hok). unfold parent. simpl.
  now rewrite removelast_last.
Qed.

Lemma backup_path_name (p : path) :
  path_ok p = true ->
  name (backup_path p) = (stem p ++ ".backup" ++ suffix p)%string.
Proof.
  intros Hok. rewrite (backup_path_parts p Hok). unfold name. simpl.
  now rewrite last_last.
Qed.

Lemma backup_path_neq (p : path) : path_ok p = true -> backup_path p <> p.
Proof.
  intros Hok E. apply (f_equal name) in E.
  rewrite (backup_path_name p Hok), <- stem_suffix in E.
  apply (f_equal String.length) in E. rewrite !length_app in E.
  simpl in E. lia.
Qed.

End PathFacts.

(** ** The loop over the [en-us] entries *)

Module LoopFacts.
Import Dict DictFacts ValueFacts.

(** A document that is not a dict stops the loop at its first entry. *)
Lemma sync_fields_not_dict items tr ups :
  (forall t, tr <> PyDict t) -> items <> [] ->
  sync_fields items tr ups = Raise AttributeError.
Proof.
  intros Hnd Hne. destruct items as [|[k v] items]; [contradiction|].
  simpl. destruct tr; try reflexivity. exfalso. eapply Hnd. reflexivity.
Qed.

(** Without a [fields] key every entry is skipped. *)
Lemma sync_fields_no_fields items t ups :
  lookup t "fields" = None ->
  sync_fields items (PyDict t) ups = Ok (PyDict t, ups).
Proof.
  intros Hl. induction items as [|[k v] items IH]; simpl; auto.
  unfold get. rewrite Hl. simpl. exact IH.
Qed.

(** When [fields] is not a dict the loop either raises or skips every
    entry. *)
Lemma sync_fields_other items t x ups tr' ups' :
  lookup t "fields" = Some x -> (forall f, x <> PyDict f) ->
  sync_fields items (PyDict t) ups = Ok (tr', ups') ->
  tr' = PyDict t /\ ups' = ups.
Proof.
  intros Hl Hx. induction items as [|[k v] items IH]; simpl.
  - intros H. inversion H. auto.
  - unfold get. rewrite Hl.
    destruct (py_contains x k) as [[|]|] eqn:E; try discriminate; auto.
    destruct x; try discriminate. exfalso. eapply Hx. reflexivity.
Qed.

(** One turn of the loop when [fields] is a dict. *)
Lemma sync_field_dict t f ups k v :
  lookup t "fields" = Some (PyDict f) ->
  sync_field (PyDict t) ups k v =
  if mem f k && py_ne (get f k PyNone) v
  then Ok (PyDict (set t "fields" (PyDict (set f k v))),
           (ups ++ [mkupdate k (get f k PyNone) v])%list)
  else Ok (PyDict t, ups).
Proof.
  intros Hl. unfold sync_field, get at 1 2. rewrite Hl. simpl.
  destruct (mem f k); simpl; auto.
Qed.

(** When [fields] is a dict the loop runs to its end, and the working
    copy differs from the document in the values of [fields] only. *)
Lemma sync_fields_dict items :
  NoDup (keys items) ->
  forall t f ups,
  lookup t "fields" = Some (PyDict f) ->
  exists f' news,
    sync_fields items (PyDict t) ups =
      Ok (PyDict (set t "fields" (PyDict f')), (ups ++ news)%list) /\
    keys f' = keys f /\
    (forall k, ~ In k (keys items) -> lookup f' k = lookup f k) /\
    (forall k v cur, In (k, v) items -> lookup f k = Some cur ->
       lookup f' k = Some (if py_eq cur v then cur else v)) /\
    (forall u, In u news <->
       In (field u, new u) items /\ lookup f (field u) = Some (old u) /\
       py_eq (old u) (new u) = false) /\
    (news = [] -> f' = f).
Proof.
  induction items as [|[k0 v0] items IH]; intros Hnd t f ups Hl.
  - exists f, []. simpl. rewrite app_nil_r, (set_lookup _ _ _ Hl).
    repeat split; auto; try tauto.
  - inversion Hnd as [|? ? Hnotin Hnd']; subst.
    cbn [sync_fields]. rewrite (sync_field_dict t f ups k0 v0 Hl).
    destruct (mem f k0) eqn:Hmem.
    + (* the key is a field *)
      pose proof (get_mem f k0 PyNone Hmem) as Hcur.
      set (cur0 := get f k0 PyNone) in *.
      unfold py_ne. destruct (py_eq cur0 v0) eqn:Heq; simpl.
      * (* equal: nothing happens *)
        destruct (IH Hnd' t f ups Hl)
          as [f' [news [Hrun [Hkeys [Hframe [Hval [Hnews Hnil]]]]]]].
        exists f', news. rewrite Hrun.
        refine (conj eq_refl (conj Hkeys (conj _ (conj _ (conj _ Hnil))))).
        -- intros k Hk. apply Hframe. simpl in Hk. tauto.
        -- intros k v cur [Hin | Hin] Hk.
           ++ inversion Hin; subst. rewrite Hframe by assumption.
              rewrite Hk. rewrite Hcur in Hk. inversion Hk; subst.
              now rewrite Heq.
           ++ eauto.
        -- intros u. rewrite Hnews. simpl. split; [tauto|].
           intros [[Hin | Hin] [Ho Hne]]; [|tauto].
           inversion Hin; subst. rewrite Hcur in Ho. inversion Ho; subst.
           congruence.
      * (* different: record the update and overwrite *)
        assert (lookup (set t "fields" (PyDict (set f k0 v0))) "fields"
                = Some (PyDict (set f k0 v0))) as Hl1
          by apply lookup_set_same.
        destruct (IH Hnd' _ _ (ups ++ [mkupdate k0 cur0 v0])%list Hl1)
          as [f' [news [Hrun [Hkeys [Hframe [Hval [Hnews Hnil]]]]]]].
        exists f', (mkupdate k0 cur0 v0 :: news).
        rewrite Hrun, set_set, <- app_assoc. simpl.
        assert (forall k, k <> k0 -> lookup (set f k0 v0) k = lookup f k)
          as Hother by (intros k Hk; apply lookup_set_other; congruence).
        assert (forall k v, In (k, v) items -> k <> k0) as Hfresh.
        { intros k v Hin ->. apply Hnotin. apply in_map_iff.
          now exists (k0, v). }
        refine (conj eq_refl (conj _ (conj _ (conj _ (conj _ _))))).
        -- rewrite Hkeys. now apply keys_set_present.
        -- intros k Hk. simpl in Hk. rewrite Hframe by tauto.
           apply Hother. intros ->. tauto.
        -- intros k v cur [Hin | Hin] Hk.
           ++ inversion Hin; subst. rewrite Hframe by assumption.
              rewrite lookup_set_same. rewrite Hcur in Hk.
              inversion Hk; subst. now rewrite Heq.
           ++ apply Hval; auto. rewrite Hother; eauto.
        -- intros u. simpl. rewrite Hnews. split.
           ++ intros [Hu | [Hin [Ho Hne]]].
              ** subst u. simpl. auto.
              ** rewrite Hother in Ho; eauto.
           ++ intros [[Hin | Hin] [Ho Hne]].
              ** left. destruct u as [uf uo un]. simpl in *.
                 inversion Hin; subst. rewrite Hcur in Ho. now inversion Ho.
              ** right. repeat split; auto. rewrite Hother; eauto.
        -- discriminate.
    + (* the key is not a field: skipped *)
      simpl.
      destruct (IH Hnd' t f ups Hl)
        as [f' [news [Hrun [Hkeys [Hframe [Hval [Hnews Hnil]]]]]]].
      exists f', news. rewrite Hrun.
      refine (conj eq_refl (conj Hkeys (conj _ (conj _ (conj _ Hnil))))).
      * intros k Hk. apply Hframe. simpl in Hk. tauto.
      * intros k v cur [Hin | Hin] Hk.
        -- inversion Hin; subst. unfold mem in Hmem. rewrite Hk in Hmem.
           discriminate.
        -- eauto.
      * intros u. rewrite Hnews. simpl. split; [tauto|].
        intros [[Hin | Hin] [Ho Hne]]; [|tauto].
        inversion Hin; subst. unfold mem in Hmem. rewrite Ho in Hmem.
        discriminate.
Qed.

(** What the loop leaves of a [fields] dict is well formed. *)
Lemma synced_fields_wf items f f' :
  wf (PyDict items) -> wf (PyDict f) ->
  keys f' = keys f ->
  (forall k, ~ In k (keys items) -> lookup f' k = lookup f k) ->
  (forall k v cur, In (k, v) items -> lookup f k = Some cur ->
     lookup f' k = Some (if py_eq cur v then cur else v)) ->
  wf (PyDict f').
Proof.
  intros Hwi Hwf Hkeys Hframe Hval.
  pose proof Hwi as Hwi'. pose proof Hwf as Hwf'.
  apply wf_dict in Hwi'. destruct Hwi' as [_ Hai].
  apply wf_dict in Hwf'. destruct Hwf' as [Hnd _].
  apply wf_dict. split; [now rewrite Hkeys|].
  apply Forall_forall. intros [k v'] Hin. simpl.
  assert (lookup f' k = Some v') as Hl'
    by (apply In_lookup; [now rewrite Hkeys | exact Hin]).
  destruct (in_dec string_dec k (keys items)) as [Hk | Hk].
  - apply in_map_iff in Hk. destruct Hk as [[k1 v] [Hfst Hk]].
    simpl in Hfst. subst k1.
    assert (mem f k = true) as Hm.
    { apply mem_In. rewrite <- Hkeys. apply mem_In. unfold mem.
      now rewrite Hl'. }
    apply mem_lookup in Hm. destruct Hm as [cur Hcur].
    rewrite (Hval k v cur Hk Hcur) in Hl'. inversion Hl'.
    destruct (py_eq cur v).
    + eapply wf_lookup; eauto.
    + rewrite Forall_forall in Hai. apply (Hai (k, v) Hk).
  - rewrite (Hframe k Hk) in Hl'. eapply wf_lookup; eauto.
Qed.

(** The loop on a loaded document: when it runs to its end the document
    is a dict, and either it has no [fields] dict and nothing happened,
    or the working copy is the document with new values in [fields]. *)
Lemma sync_fields_ok items tr tr' ups :
  NoDup (keys items) -> items <> [] ->
  sync_fields items tr [] = Ok (tr', ups) ->
  exists t, tr = PyDict t /\
    ((fields_of tr = None /\ tr' = tr /\ ups = []) \/
     (exists f f',
        fields_of tr = Some f /\
        lookup t "fields" = Some (PyDict f) /\
        tr' = PyDict (set t "fields" (PyDict f')) /\
        keys f' = keys f /\
        (forall k, ~ In k (keys items) -> lookup f' k = lookup f k) /\
        (forall k v cur, In (k, v) items -> lookup f k = Some cur ->
           lookup f' k = Some (if py_eq cur v then cur else v)) /\
        (forall u, In u ups <->
           In (field u, new u) items /\ lookup f (field u) = Some (old u) /\
           py_eq (old u) (new u) = false) /\
        (ups = [] -> f' = f))).
Proof.
  intros Hnd Hne S.
  destruct tr as [| b | z | x | s | l | t];
    try (rewrite sync_fields_not_dict in S by (auto; discriminate);
         discriminate).
  exists t. split; [reflexivity|].
  destruct (lookup t "fields") as [x|] eqn:Hl.
  - assert ((exists f, x = PyDict f) \/ (forall f, x <> PyDict f)) as [[f ->] | Hx].
    { destruct x; eauto; right; discriminate. }
    + right.
      destruct (sync_fields_dict items Hnd t f [] Hl)
        as [f' [news [Hrun [Hkeys [Hframe [Hval [Hnews Hnil]]]]]]].
      rewrite S in Hrun. inversion Hrun; subst. simpl.
      exists f, f'. unfold fields_of. rewrite Hl.
      repeat (split; [assumption || reflexivity|]). assumption.
    + left. destruct (sync_fields_other _ _ _ _ _ _ Hl Hx S) as [-> ->].
      unfold fields_of. rewrite Hl.
      split; auto. destruct x; auto. exfalso. eapply Hx. reflexivity.
  - left. rewrite (sync_fields_no_fields _ _ _ Hl) in S.
    inversion S; subst. unfold fields_of. rewrite Hl. auto.
Qed.

(** The working copy of a loaded document is well formed. *)
Lemma sync_fields_wf items tr tr' ups :
  wf (PyDict items) -> wf tr -> items <> [] ->
  sync_fields items tr [] = Ok (tr', ups) -> wf tr'.
Proof.
  intros Hwi Hwt Hne S.
  assert (NoDup (keys items)) as Hnd by (apply wf_dict in Hwi; tauto).
  destruct (sync_fields_ok _ _ _ _ Hnd Hne S) as [t [-> [[_ [-> _]] | R]]];
    auto.
  destruct R as [f [f' [_ [Hl [-> [Hkeys [Hframe [Hval _]]]]]]]].
  apply wf_set; auto.
  apply (synced_fields_wf items f f'); auto.
  apply (wf_lookup t "fields"); auto.
Qed.

End LoopFacts.

(** ** A run of [sync_translations] *)

Section RunFacts.

Variable text : Type.
Variable empty_text : text.
Variable json_load : text -> option value.
Variable json_dump : value -> text.

Local Abbreviation sync :=
  (sync_translations text empty_text json_load json_dump).
Local Abbreviation doc := (document json_load).
Local Abbreviation written := (written text empty_text json_dump).

Lemma load_file_ok p (w : world text) v :
  doc (files w) p = Some v -> load_file text json_load p w = (Ok v, w).
Proof.
  unfold doc, document, load_file.
  destruct (files w p) as [[t|]|]; try discriminate.
  now intros ->.
Qed.

Lemma load_file_inv p (w w' : world text) v :
  load_file text json_load p w = (Ok v, w') ->
  doc (files w) p = Some v /\ w' = w.
Proof.
  unfold doc, document, load_file.
  destruct (files w p) as [[t|]|]; try discriminate.
  destruct (json_load t); intros H; inversion H; auto.
Qed.

Lemma load_file_raise p (w w' : world text) e :
  load_file text json_load p w = (Raise e, w') -> w' = w.
Proof.
  unfold load_file.
  destruct (files w p) as [[t|]|]; try (intros H; now inversion H).
  destruct (json_load t); intros H; now inversion H.
Qed.

Lemma document_write_same (f : fs text) p v :
  doc (write f p (json_dump v)) p = json_load (json_dump v).
Proof.
  unfold doc, document, write. now rewrite PathFacts.path_eqb_refl.
Qed.

Lemma document_write_other (f : fs text) p q t :
  q <> p -> doc (write f p t) q = doc f q.
Proof.
  intros Hne. unfold doc, document, write.
  apply PathFacts.path_eqb_neq in Hne. now rewrite Hne.
Qed.

Lemma open_w_ok p (w : world text) :
  files w p <> Some Dir ->
  open_w text empty_text p w =
  (Ok tt, mkworld (write (files w) p empty_text) (console w)).
Proof.
  unfold open_w. destruct (files w p) as [[t|]|]; auto. congruence.
Qed.

Lemma document_not_dir (f : fs text) p v : doc f p = Some v -> f p <> Some Dir.
Proof.
  unfold doc, document. destruct (f p) as [[t|]|]; discriminate.
Qed.

Lemma write_not_dir (f : fs text) p q t :
  f p <> Some Dir -> write f q t p <> Some Dir.
Proof.
  unfold write. destruct (path_eqb p q); auto. discriminate.
Qed.

(** Every run that returns is one of three: the template has no
    [en-us] labels; the labels agree with the fields; some labels were
    written, after a backup. *)
Lemma sync_translations_inv wp tp (w w' : world text) n :
  sync wp tp w = (Ok n, w') ->
  exists webform translations en,
    doc (files w) wp = Some webform /\
    doc (files w) tp = Some translations /\
    en_us_of webform = Ok en /\
    ((truthy en = false /\ n = -1 /\ files w' = files w) \/
     (exists items tr' ups,
        en = PyDict items /\ items <> [] /\
        sync_fields items translations [] = Ok (tr', ups) /\
        n = Z.of_nat (List.length ups) /\
        ((ups = [] /\ files w' = files w) \/
         (ups <> [] /\
          exists original,
            doc (write (files w) (backup_path tp) empty_text) tp
              = Some original /\
            files w' = written (files w) tp original tr')))).
Proof.
  unfold sync, sync_translations, bind, print, lift, ret. cbn.
  intros H.
  destruct (load_file _ _ wp _) as [[webform|e] w1] eqn:L1; [|discriminate].
  apply load_file_inv in L1. cbn in L1. destruct L1 as [D1 ->].
  destruct (load_file _ _ tp _) as [[translations|e] w2] eqn:L2;
    [|discriminate].
  apply load_file_inv in L2. cbn in L2. destruct L2 as [D2 ->].
  exists webform, translations.
  unfold en_us_of.
  destruct (py_get webform _ _) as [ft|e]; [|discriminate].
  destruct (py_get ft _ _) as [en|e]; [|discriminate].
  exists en. repeat (split; [assumption || reflexivity|]).
  destruct (truthy en) eqn:T; cbn in H.
  - right.
    destruct (py_len en) as [len|e]; [|discriminate].
    destruct (py_items en) as [items|e] eqn:I; [|discriminate].
    destruct en; try discriminate. cbn in I. inversion I; subst.
    destruct (sync_fields items translations []) as [[tr' ups]|e] eqn:S;
      [|discriminate].
    exists items, tr', ups.
    split; [reflexivity|].
    split; [intros E; subst items; discriminate T|].
    split; [exact S|].
    destruct ups as [|u ups].
    + inversion H; subst. cbn. auto.
    + cbn in H.
      destruct (open_w _ _ (backup_path tp) _) as [[[]|e] w3] eqn:O1;
        [|discriminate].
      unfold open_w in O1. cbn in O1.
      destruct (files w (backup_path tp)) as [[t|]|] eqn:B;
        try discriminate; inversion O1; subst; clear O1;
        (destruct (load_file _ _ tp _) as [[original|e] w4] eqn:L3;
         [|discriminate];
         apply load_file_inv in L3; cbn in L3; destruct L3 as [D3 ->];
         cbn in H;
         rewrite open_w_ok in H
           by (cbn; apply write_not_dir; eapply document_not_dir; exact D3);
         inversion H; subst; cbn;
         split; [reflexivity|]; right; split; [discriminate|];
         exists original; split; [exact D3 | reflexivity]).
  - left. inversion H; subst. cbn. auto.
Qed.

(** A template without [en-us] labels: the run returns [-1] and writes
    nothing. *)
Lemma sync_translations_structural wp tp (w : world text)
    webform translations en :
  doc (files w) wp = Some webform ->
  doc (files w) tp = Some translations ->
  en_us_of webform = Ok en ->
  truthy en = false ->
  exists w', sync wp tp w = (Ok (-1), w') /\ files w' = files w.
Proof.
  intros D1 D2 E T.
  unfold sync_translations, bind, print, lift, ret. cbn.
  rewrite (load_file_ok wp _ webform) by exact D1. cbn.
  rewrite (load_file_ok tp _ translations) by exact D2. cbn.
  unfold en_us_of in E.
  destruct (py_get webform _ _) as [ft|e]; [|discriminate].
  rewrite E, T. cbn. eexists. split; reflexivity.
Qed.

(** Labels that agree with the fields: the run returns [0] and writes
    nothing. *)
Lemma sync_translations_in_sync wp tp (w : world text)
    webform translations items tr' :
  doc (files w) wp = Some webform ->
  doc (files w) tp = Some translations ->
  en_us_of webform = Ok (PyDict items) ->
  items <> [] ->
  sync_fields items translations [] = Ok (tr', []) ->
  exists w', sync wp tp w = (Ok 0, w') /\ files w' = files w.
Proof.
  intros D1 D2 E Hne S.
  unfold sync_translations, bind, print, lift, ret. cbn.
  rewrite (load_file_ok wp _ webform) by exact D1. cbn.
  rewrite (load_file_ok tp _ translations) by exact D2. cbn.
  unfold en_us_of in E.
  destruct (py_get webform _ _) as [ft|e]; [|discriminate].
  rewrite E. destruct items as [|kv items]; [contradiction|].
  cbn [truthy negb py_len py_items].
  rewrite S. cbn. eexists. split; reflexivity.
Qed.

Lemma document_exists (f : fs text) p v :
  doc f p = Some v -> exists_ f p = true.
Proof.
  unfold doc, document, exists_. destruct (f p); [reflexivity|discriminate].
Qed.

Local Abbreviation run_main :=
  (main text empty_text json_load json_dump).

(** C3. When the template's [formTranslations] mapping has no [en-us]
    entry, or an empty one, [sync_translations] returns a negative
    number (so not zero), no file is written, and [main] exits with
    status 1, the files being what they were. *)
Theorem structural_error_is_reported wp tp (w : world text)
    webform translations ft :
  doc (files w) wp = Some webform ->
  doc (files w) tp = Some translations ->
  py_get webform "formTranslations" (PyDict []) = Ok (PyDict ft) ->
  Dict.lookup ft "en-us" = None \/ Dict.lookup ft "en-us" = Some (PyDict []) ->
  (exists n w', sync wp tp w = (Ok n, w') /\ n < 0 /\ files w' = files w) /\
  (forall prog arg1 arg2, Path arg1 = wp -> Path arg2 = tp ->
     exists w', run_main [prog; arg1; arg2] w = (1, w') /\
                files w' = files w).
Proof.
  intros D1 D2 F E.
  assert (exists en, en_us_of webform = Ok en /\ truthy en = false)
    as [en [Hen T]].
  { unfold en_us_of. rewrite F. cbn. unfold Dict.get.
    destruct E as [-> | ->]; eexists; split; reflexivity. }
  destruct (sync_translations_structural wp tp w _ _ _ D1 D2 Hen T)
    as [w' [R Hf]].
  split.
  - exists (-1), w'. repeat split; auto.
  - intros prog arg1 arg2 <- <-. unfold main.
    rewrite (document_exists _ _ _ D1), (document_exists _ _ _ D2).
    cbn [negb]. rewrite R. cbn. eauto.
Qed.

(** C6. A run that finds zero updates writes nothing: every path holds
    after the run what it held before, so no backup was created and the
    target is unchanged. *)
Theorem no_update_no_write wp tp (w w' : world text) :
  sync wp tp w = (Ok 0, w') -> files w' = files w.
Proof.
  intros R. apply sync_translations_inv in R.
  destruct R as [webform [translations [en [_ [_ [_ R]]]]]].
  destruct R as [[_ [Hn _]] | [items [tr' [ups [_ [_ [_ [Hn R]]]]]]]].
  - discriminate.
  - destruct R as [[_ Hf] | [Hne _]]; auto.
    destruct ups; [contradiction | discriminate].
Qed.

(** C10. A target document without a [fields] key is no error: with a
    non-empty [en-us] mapping every label is skipped,
    [sync_translations] returns 0, no file is written, and [main] exits
    with status 0. *)
Theorem missing_fields_is_no_error wp tp (w : world text) webform t items :
  doc (files w) wp = Some webform ->
  doc (files w) tp = Some (PyDict t) ->
  en_us_of webform = Ok (PyDict items) ->
  items <> [] ->
  Dict.lookup t "fields" = None ->
  sync_fields items (PyDict t) [] = Ok (PyDict t, []) /\
  (exists w', sync wp tp w = (Ok 0, w') /\ files w' = files w) /\
  (forall prog arg1 arg2, Path arg1 = wp -> Path arg2 = tp ->
     exists w', run_main [prog; arg1; arg2] w = (0, w') /\
                files w' = files w).
Proof.
  intros D1 D2 E Hne Hl.
  pose proof (LoopFacts.sync_fields_no_fields items t [] Hl) as S.
  destruct (sync_translations_in_sync wp tp w _ _ _ _ D1 D2 E Hne S)
    as [w' [R Hf]].
  split; [exact S|]. split; [eauto|].
  intros prog arg1 arg2 <- <-. unfold main.
  rewrite (document_exists _ _ _ D1), (document_exists _ _ _ D2).
  cbn [negb]. rewrite R. cbn. eauto.
Qed.

(** C9. The exit status of [main]. With a number of arguments other
    than two (so [len(sys.argv) != 3]) it prints the usage and exits
    with 1. With a first path that does not exist, or else a second one,
    it prints the error that names that path and exits with 1. When
    [sync_translations] returns a count, zero or more, it exits with 0.
    When [sync_translations] raises an exception it prints the error and
    exits with 1. *)
Theorem exit_status (argv : list string) (w : world text) :
  (List.length argv <> 3%nat ->
   run_main argv w = (1, mkworld (files w) (console w ++ [Usage])%list)) /\
  (forall prog arg1 arg2, argv = [prog; arg1; arg2] ->
   (files w (Path arg1) = None ->
    run_main argv w =
    (1, mkworld (files w)
          (console w ++ [Webform_not_found (Path arg1)])%list)) /\
   (files w (Path arg1) <> None -> files w (Path arg2) = None ->
    run_main argv w =
    (1, mkworld (files w)
          (console w ++ [Translations_not_found (Path arg2)])%list)) /\
   (files w (Path arg1) <> None -> files w (Path arg2) <> None ->
    (forall n w', sync (Path arg1) (Path arg2) w = (Ok n, w') -> 0 <= n ->
       run_main argv w = (0, w')) /\
    (forall e w', sync (Path arg1) (Path arg2) w = (Raise e, w') ->
       run_main argv w =
       (1, mkworld (files w')
             (console w' ++ [Error_and_traceback e])%list)))).
Proof.
  split.
  - intros Hlen. unfold main.
    destruct argv as [|a0 [|a1 [|a2 [|a3 argv]]]]; try reflexivity.
    simpl in Hlen. congruence.
  - intros prog arg1 arg2 ->. unfold main, exists_.
    split; [|split].
    + intros ->. reflexivity.
    + intros H1 ->. destruct (files w (Path arg1)); [reflexivity|congruence].
    + intros H1 H2.
      destruct (files w (Path arg1)) as [nd1|]; [|congruence].
      destruct (files w (Path arg2)) as [nd2|]; [|congruence].
      cbn [negb]. split.
      * intros n w' -> Hn. apply Z.geb_le in Hn. now rewrite Hn.
      * intros e w' ->. reflexivity.
Qed.

(** *** The laws of the codec

    [json.load] returns well-formed values, and a well-formed value
    that was dumped loads again as itself. *)

Hypothesis load_wf : forall t v, json_load t = Some v -> wf v.
Hypothesis load_dump : forall v, wf v -> json_load (json_dump v) = Some v.

Lemma document_wf (f : fs text) p v : doc f p = Some v -> wf v.
Proof.
  unfold document. destruct (f p) as [[t|]|]; try discriminate.
  apply load_wf.
Qed.

Lemma en_us_of_wf webform en :
  wf webform -> en_us_of webform = Ok en -> wf en.
Proof.
  unfold en_us_of, py_get. intros Hw.
  destruct webform; try discriminate.
  pose proof (ValueFacts.wf_get d "formTranslations" (PyDict []) Hw eq_refl)
    as Hft.
  destruct (Dict.get d "formTranslations" (PyDict [])); try discriminate.
  intros H. inversion H; subst.
  now apply ValueFacts.wf_get.
Qed.

Lemma en_us_of_set_fields t x :
  en_us_of (PyDict (Dict.set t "fields" x)) = en_us_of (PyDict t).
Proof.
  unfold en_us_of, py_get, Dict.get.
  now rewrite DictFacts.lookup_set_other by discriminate.
Qed.

Lemma written_target (f : fs text) tp original tr' :
  doc (written f tp original tr') tp = json_load (json_dump tr').
Proof. unfold written. apply document_write_same. Qed.

Lemma written_backup (f : fs text) tp original tr' :
  backup_path tp <> tp ->
  written f tp original tr' (backup_path tp)
  = Some (File (json_dump original)).
Proof.
  intros Hne. unfold written, write.
  apply PathFacts.path_eqb_neq in Hne.
  now rewrite Hne, PathFacts.path_eqb_refl.
Qed.

Lemma written_other (f : fs text) tp original tr' q :
  q <> tp -> q <> backup_path tp -> written f tp original tr' q = f q.
Proof.
  intros H1 H2. unfold written, write.
  apply PathFacts.path_eqb_neq in H1, H2. now rewrite H1, H2.
Qed.

(** C7. Whatever the run did, the target document after it has the
    sections it had before, in the same order, and every section other
    than [fields] holds the value it held. A document without a
    [fields] mapping is unchanged as a whole, and a [fields] mapping
    keeps its keys: only values inside [fields] change. *)
Theorem other_sections_preserved wp tp (w w' : world text) n :
  sync wp tp w = (Ok n, w') ->
  exists d d',
    doc (files w) tp = Some d /\ doc (files w') tp = Some d' /\
    sections_of d' = sections_of d /\
    (forall k, k <> "fields" -> section_of d' k = section_of d k) /\
    (fields_of d = None -> d' = d) /\
    (forall f, fields_of d = Some f ->
       exists f', fields_of d' = Some f' /\ Dict.keys f' = Dict.keys f).
Proof.
  intros R. apply sync_translations_inv in R.
  destruct R as [webform [d [en [D1 [D2 [E R]]]]]].
  assert (forall f' : fs text, f' = files w ->
    exists d0 d', doc (files w) tp = Some d0 /\ doc f' tp = Some d' /\
      sections_of d' = sections_of d0 /\
      (forall k, k <> "fields" -> section_of d' k = section_of d0 k) /\
      (fields_of d0 = None -> d' = d0) /\
      (forall f, fields_of d0 = Some f ->
         exists f', fields_of d' = Some f' /\ Dict.keys f' = Dict.keys f))
    as Hsame.
  { intros f' ->. exists d, d. repeat split; eauto. }
  destruct R as [[_ [_ Hf]] | [items [tr' [ups [-> [Hne [S [_ R]]]]]]]];
    [now apply Hsame|].
  destruct R as [[_ Hf] | [Hups [original [_ Hf]]]]; [now apply Hsame|].
  pose proof (document_wf _ _ _ D1) as Hww.
  pose proof (document_wf _ _ _ D2) as Hwd.
  pose proof (en_us_of_wf _ _ Hww E) as Hwi.
  pose proof (LoopFacts.sync_fields_wf _ _ _ _ Hwi Hwd Hne S) as Hwt.
  assert (NoDup (Dict.keys items)) as Hnd
    by (apply ValueFacts.wf_dict in Hwi; tauto).
  destruct (LoopFacts.sync_fields_ok _ _ _ _ Hnd Hne S)
    as [t [-> [[_ [_ Hnil]] | Hrun]]]; [contradiction|].
  destruct Hrun as [f [f' [Hfo [Hl [-> [Hkeys _]]]]]].
  exists (PyDict t), (PyDict (Dict.set t "fields" (PyDict f'))).
  rewrite Hf, written_target, (load_dump _ Hwt).
  repeat split; auto.
  - simpl. apply DictFacts.keys_set_present. unfold Dict.mem.
    now rewrite Hl.
  - intros k Hk. simpl. apply DictFacts.lookup_set_other. congruence.
  - rewrite Hfo. discriminate.
  - intros f0 Hf0. rewrite Hfo in Hf0. inversion Hf0; subst f0.
    exists f'. split; auto. unfold fields_of.
    now rewrite DictFacts.lookup_set_same.
Qed.

(** C2, as amended. After a run that returned, a field key present in
    both the [en-us] mapping and the target's [fields] holds, in the
    target file, the label itself, or the value it had when that already
    compared equal to the label under Python's [==]. So the value
    compares equal to the label whenever the label compares equal to
    itself, which every label does that is not NaN; and when the label
    is a string the value is that string, whatever it was before. *)
Theorem labels_supersede wp tp (w w' : world text) n
    webform items d f k label :
  sync wp tp w = (Ok n, w') ->
  doc (files w) wp = Some webform ->
  en_us_of webform = Ok (PyDict items) ->
  doc (files w) tp = Some d ->
  fields_of d = Some f ->
  Dict.lookup items k = Some label ->
  Dict.mem f k = true ->
  exists d' f' v',
    doc (files w') tp = Some d' /\ fields_of d' = Some f' /\
    Dict.lookup f' k = Some v' /\
    (v' = label \/ (Dict.lookup f k = Some v' /\ py_eq v' label = true)) /\
    (py_eq label label = true -> py_eq v' label = true) /\
    (is_nan label = false -> py_eq v' label = true) /\
    (forall s, label = PyStr s -> v' = label).
Proof.
  intros R D1 E D2 Hfo Hk Hm.
  apply sync_translations_inv in R.
  destruct R as [webform0 [d0 [en [D1' [D2' [E' R]]]]]].
  rewrite D1 in D1'. inversion D1'; subst webform0.
  rewrite D2 in D2'. inversion D2'; subst d0.
  rewrite E in E'. inversion E'; subst en. clear D1' D2' E'.
  pose proof (document_wf _ _ _ D1) as Hww.
  pose proof (document_wf _ _ _ D2) as Hwd.
  pose proof (en_us_of_wf _ _ Hww E) as Hwi.
  assert (NoDup (Dict.keys items)) as Hnd
    by (apply ValueFacts.wf_dict in Hwi; tauto).
  assert (In (k, label) items) as Hin by now apply DictFacts.lookup_In.
  assert (wf label) as Hwl by (eapply ValueFacts.wf_lookup; eauto).
  apply DictFacts.mem_lookup in Hm. destruct Hm as [cur Hcur].
  destruct R as [[T _] | [items0 [tr' [ups [Ei [Hne [S [_ R]]]]]]]].
  { destruct items; [discriminate Hk | discriminate T]. }
  inversion Ei; subst items0. clear Ei.
  pose proof (LoopFacts.sync_fields_wf _ _ _ _ Hwi Hwd Hne S) as Hwt.
  destruct (LoopFacts.sync_fields_ok _ _ _ _ Hnd Hne S)
    as [t [-> [[Hnone _] | Hrun]]]; [congruence|].
  destruct Hrun as [f0 [f' [Hfo' [Hl [-> [Hkeys [_ [Hval [Hnews Hnil]]]]]]]]].
  rewrite Hfo in Hfo'. inversion Hfo'; subst f0. clear Hfo'.
  pose proof (Hval k label cur Hin Hcur) as Hpost.
  assert (exists v', Dict.lookup f' k = Some v' /\
            (v' = label \/
             (Dict.lookup f k = Some v' /\ py_eq v' label = true)) /\
            (py_eq label label = true -> py_eq v' label = true) /\
            (is_nan label = false -> py_eq v' label = true) /\
            (forall s, label = PyStr s -> v' = label)) as Hv.
  { destruct (py_eq cur label) eqn:Heq.
    - exists cur. repeat split; auto.
      intros s ->. now apply ValueFacts.py_eq_str_r.
    - exists label. repeat split; auto.
      now apply ValueFacts.py_eq_refl. }
  destruct Hv as [v' [Hv1 [Hv2 [Hv3 [Hv4 Hv5]]]]].
  destruct R as [[Hups Hf] | [Hups [original [_ Hf]]]].
  - (* nothing to update: the file is the document that was read *)
    rewrite (Hnil Hups) in *.
    exists (PyDict t), f, v'. rewrite Hf. repeat split; auto.
  - exists (PyDict (Dict.set t "fields" (PyDict f'))), f', v'.
    rewrite Hf, written_target, (load_dump _ Hwt).
    repeat split; auto.
    unfold fields_of. now rewrite DictFacts.lookup_set_same.
Qed.

(** C4. A run that returned a positive count wrote a backup: the path
    it is at has the directory of the target and the name of the target
    with [.backup] between stem and suffix, the suffix being the final
    extension (a dot and a non-empty, dot-free rest) or empty; the file
    there is the dump of the document the target held before the run;
    and parsing it gives that document back. *)
Theorem backup_is_pre_run_target wp tp (w w' : world text) n :
  sync wp tp w = (Ok n, w') ->
  0 < n ->
  path_ok tp = true ->
  exists original,
    doc (files w) tp = Some original /\
    files w' (backup_path tp) = Some (File (json_dump original)) /\
    doc (files w') (backup_path tp) = Some original /\
    parent (backup_path tp) = parent tp /\
    name (backup_path tp) = (stem tp ++ ".backup" ++ suffix tp)%string /\
    (stem tp ++ suffix tp)%string = name tp /\
    (suffix tp = "" \/
     exists ext, suffix tp = String "." ext /\ ext <> "" /\
                 has_char "." ext = false).
Proof.
  intros R Hn Hok.
  pose proof (PathFacts.backup_path_neq tp Hok) as Hbp.
  apply sync_translations_inv in R.
  destruct R as [webform [d [en [D1 [D2 [E R]]]]]].
  destruct R as [[_ [Hneg _]] | [items [tr' [ups [_ [_ [_ [Hlen R]]]]]]]];
    [lia|].
  destruct R as [[Hups _] | [_ [original [D3 Hf]]]];
    [subst ups; simpl in Hlen; lia|].
  rewrite document_write_other in D3 by congruence.
  rewrite D2 in D3. inversion D3; subst original.
  exists d. split; [exact D2|].
  assert (files w' (backup_path tp) = Some (File (json_dump d))) as Hb
    by (rewrite Hf; now apply written_backup).
  split; [exact Hb|]. split.
  - unfold document. rewrite Hb. apply load_dump.
    eapply document_wf; eauto.
  - repeat split.
    + now apply PathFacts.backup_path_parent.
    + now apply PathFacts.backup_path_name.
    + apply PathFacts.stem_suffix.
    + apply PathFacts.suffix_shape.
Qed.



(** The first run leaves the template in place when it is neither the
    target nor the file the backup goes to. *)
Lemma template_kept wp tp (w w' : world text) n :
  sync wp tp w = (Ok n, w') ->
  wp <> tp -> wp <> backup_path tp ->
  doc (files w') wp = doc (files w) wp.
Proof.
  intros R H1 H2. apply sync_translations_inv in R.
  destruct R as [webform [d [en [_ [_ [_ R]]]]]].
  destruct R as [[_ [_ Hf]] | [items [tr' [ups [_ [_ [_ [_ R]]]]]]]];
    [now rewrite Hf|].
  destruct R as [[_ Hf] | [_ [original [_ Hf]]]]; [now rewrite Hf|].
  unfold document. now rewrite Hf, written_other.
Qed.

End RunFacts.

(** ** The loop, claim by claim *)

Section LoopClaims.
Import Dict DictFacts ValueFacts.

(** Against a label that is a string, or [None], [!=] is exact
    inequality. *)
Lemma py_ne_str (cur : value) (s : string) :
  py_ne cur (PyStr s) = true <-> cur <> PyStr s.
Proof.
  unfold py_ne. rewrite negb_true_iff. split.
  - intros H ->. simpl in H. rewrite String.eqb_refl in H. discriminate.
  - intros H. destruct (py_eq cur (PyStr s)) eqn:E; auto.
    apply py_eq_str_r in E. contradiction.
Qed.

Lemma py_ne_none (cur : value) : py_ne cur PyNone = true <-> cur <> PyNone.
Proof.
  unfold py_ne. rewrite negb_true_iff. split.
  - intros H ->. discriminate.
  - intros H. destruct (py_eq cur PyNone) eqn:E; auto.
    apply py_eq_none_r in E. contradiction.
Qed.

(** C1, as amended. On a target with a [fields] mapping the loop runs
    to its end, and it overwrites [fields[key]] exactly for the keys
    that are in the [en-us] mapping and in [fields] and whose value
    compares unequal to the label under Python's [!=] (for a label that
    is a string: whose value is not that string). An overwritten key
    holds its label; every other key of [fields] holds what it held;
    the keys of [fields] are the same afterwards, so none is removed and
    none is created. *)
Theorem overwrite_iff_shared_and_unequal items doc f :
  NoDup (keys items) ->
  fields_of doc = Some f ->
  exists doc' f' ups,
    sync_fields items doc [] = Ok (doc', ups) /\
    fields_of doc' = Some f' /\
    (forall k, In k (map field ups) <->
       exists label cur, lookup items k = Some label /\
         lookup f k = Some cur /\ py_ne cur label = true) /\
    (forall k cur s, lookup items k = Some (PyStr s) ->
       lookup f k = Some cur ->
       (In k (map field ups) <-> cur <> PyStr s)) /\
    (forall k, In k (map field ups) -> lookup f' k = lookup items k) /\
    (forall k, ~ In k (map field ups) -> lookup f' k = lookup f k) /\
    keys f' = keys f.
Proof.
  intros Hnd Hfo.
  destruct doc as [| | | | | |t]; try discriminate.
  unfold fields_of in Hfo.
  destruct (lookup t "fields") as [[| | | | | |f0]|] eqn:Hl; try discriminate.
  inversion Hfo; subst f0. clear Hfo.
  destruct (LoopFacts.sync_fields_dict items Hnd t f [] Hl)
    as [f' [ups [Hrun [Hkeys [Hframe [Hval [Hnews _]]]]]]].
  simpl in Hrun.
  assert (forall k, In k (map field ups) <->
            exists label cur, lookup items k = Some label /\
              lookup f k = Some cur /\ py_ne cur label = true) as Hiff.
  { intros k. rewrite in_map_iff. split.
    - intros [u [<- Hu]]. apply Hnews in Hu. destruct Hu as [Hin [Ho Hne]].
      exists (new u), (old u). unfold py_ne. rewrite Hne.
      repeat split; auto. now apply In_lookup.
    - intros [label [cur [Hk [Hc Hne]]]].
      exists (mkupdate k cur label). split; auto.
      apply Hnews. simpl. repeat split; auto.
      + now apply lookup_In.
      + unfold py_ne in Hne. now apply negb_true_iff in Hne. }
  exists (PyDict (set t "fields" (PyDict f'))), f', ups.
  split; [exact Hrun|].
  split; [unfold fields_of; now rewrite lookup_set_same|].
  split; [exact Hiff|].
  split; [|split; [|split; [|exact Hkeys]]].
  - intros k cur s Hk Hc. rewrite Hiff, <- py_ne_str. split.
    + intros [label [cur' [Hk' [Hc' Hne]]]]. congruence.
    + intros Hne. eauto.
  - intros k Hk. apply Hiff in Hk.
    destruct Hk as [label [cur [Hk [Hc Hne]]]].
    rewrite (Hval k label cur (lookup_In _ _ _ Hk) Hc), Hk.
    unfold py_ne in Hne. apply negb_true_iff in Hne. now rewrite Hne.
  - intros k Hk.
    destruct (lookup items k) as [label|] eqn:Hi.
    + destruct (lookup f k) as [cur|] eqn:Hc.
      * rewrite (Hval k label cur (lookup_In _ _ _ Hi) Hc).
        destruct (py_eq cur label) eqn:Heq; auto.
        exfalso. apply Hk. apply Hiff. exists label, cur.
        unfold py_ne. rewrite Heq. auto.
      * destruct (lookup f' k) as [v'|] eqn:Hc'; auto.
        assert (mem f k = true) as Hm.
        { apply mem_In. rewrite <- Hkeys. apply mem_In. unfold mem.
          now rewrite Hc'. }
        unfold mem in Hm. rewrite Hc in Hm. discriminate.
    + apply Hframe. intros Hin. apply mem_In in Hin.
      unfold mem in Hin. rewrite Hi in Hin. discriminate.
Qed.

(** C5, as amended. The current value, [None] when the field holds
    [null], is compared to the label with Python's [!=], and an update
    is recorded, and the field overwritten, exactly when the two compare
    unequal. Against a label that is a string, or [None], this is exact
    inequality, type included: [None] is not the empty string. Between
    other types it is not: [True] compares equal to [1] and [False] to
    [0]. *)
Theorem comparison_is_python_ne t f ups k label :
  lookup t "fields" = Some (PyDict f) ->
  mem f k = true ->
  (py_ne (get f k PyNone) label = true ->
   sync_field (PyDict t) ups k label =
   Ok (PyDict (set t "fields" (PyDict (set f k label))),
       (ups ++ [mkupdate k (get f k PyNone) label])%list)) /\
  (py_ne (get f k PyNone) label = false ->
   sync_field (PyDict t) ups k label = Ok (PyDict t, ups)) /\
  (forall s, label = PyStr s ->
     (py_ne (get f k PyNone) label = true <-> get f k PyNone <> label)) /\
  (label = PyNone ->
     (py_ne (get f k PyNone) label = true <-> get f k PyNone <> label)) /\
  py_ne PyNone (PyStr "") = true /\
  py_ne (PyBool true) (PyInt 1) = false /\
  py_ne (PyBool false) (PyInt 0) = false.
Proof.
  intros Hl Hm. rewrite (LoopFacts.sync_field_dict t f ups k label Hl), Hm.
  simpl. repeat split.
  - intros ->. reflexivity.
  - intros ->. reflexivity.
  - subst label. apply py_ne_str.
  - subst label. apply py_ne_str.
  - subst label. apply py_ne_none.
  - subst label. apply py_ne_none.
Qed.

End LoopClaims.

(** ** The script at work

    The codec [Plain] satisfies the laws, and the runs below apply the
    theorems to the documents of [Scenario]. *)

Lemma Plain_load_wf (t : Plain.text) (v : value) :
  Plain.json_load t = Some v -> wf v.
Proof.
  unfold Plain.json_load. destruct t as [v0|]; [|discriminate].
  destruct (wfb v0) eqn:E; [|discriminate].
  intros H. inversion H; subst. exact E.
Qed.

Lemma Plain_load_dump (v : value) :
  wf v -> Plain.json_load (Plain.json_dump v) = Some v.
Proof. unfold wf, Plain.json_load, Plain.json_dump. now intros ->. Qed.

Section Runs.
Import Scenario.

Lemma overwrite_iff_shared_and_unequal_witness :
  exists doc' f' ups,
    sync_fields [("name", PyStr "Full Name"); ("email", PyStr "Email Address")]
      target [] = Ok (doc', ups) /\
    fields_of doc' = Some f' /\
    map field ups = ["name"] /\
    Dict.lookup f' "name" = Some (PyStr "Full Name") /\
    Dict.lookup f' "phone" = Some (PyStr "Phone").
Proof.
  assert (NoDup (Dict.keys [("name", PyStr "Full Name");
                            ("email", PyStr "Email Address")])) as Hnd
    by (apply ValueFacts.distinct_NoDup; reflexivity).
  destruct (overwrite_iff_shared_and_unequal
              [("name", PyStr "Full Name"); ("email", PyStr "Email Address")]
              target _ Hnd eq_refl)
    as [doc' [f' [ups [Hrun [Hfo _]]]]].
  exists doc', f', ups.
  vm_compute in Hrun. inversion Hrun; subst doc' ups.
  vm_compute in Hfo. inversion Hfo; subst f'.
  repeat split; reflexivity.
Defined.

(** C1 as stated fails: the key [a] is in both mappings and [true] is
    not [1], yet the loop records no update and leaves the document as
    it is. *)
Lemma overwrite_iff_differ_counterexample :
  sync_fields [("a", PyInt 1)] target_true [] = Ok (target_true, []) /\
  Dict.lookup [("a", PyInt 1)] "a" = Some (PyInt 1) /\
  fields_of target_true = Some [("a", PyBool true)] /\
  Dict.lookup [("a", PyBool true)] "a" = Some (PyBool true) /\
  PyBool true <> PyInt 1.
Proof. repeat split; try reflexivity. discriminate. Qed.

Lemma comparison_is_python_ne_witness :
  sync_field target [] "name" (PyStr "Full Name") =
  Ok (PyDict
        [("fields",
          PyDict [("name", PyStr "Full Name");
                  ("email", PyStr "Email Address");
                  ("phone", PyStr "Phone")]);
         ("options", PyDict [("yes", PyStr "Yes")])],
      [mkupdate "name" (PyStr "Full Nm") (PyStr "Full Name")]).
Proof.
  exact (proj1 (comparison_is_python_ne
                  [("fields",
                    PyDict [("name", PyStr "Full Nm");
                            ("email", PyStr "Email Address");
                            ("phone", PyStr "Phone")]);
                   ("options", PyDict [("yes", PyStr "Yes")])]
                  [("name", PyStr "Full Nm");
                   ("email", PyStr "Email Address");
                   ("phone", PyStr "Phone")]
                  [] "name" (PyStr "Full Name") eq_refl eq_refl) eq_refl).
Defined.

(** C5 as stated fails: [true] and [1] are not exactly equal, their
    types differ, yet the comparison finds no difference and no update
    is recorded. *)
Lemma exact_comparison_counterexample :
  PyBool true <> PyInt 1 /\
  py_ne (PyBool true) (PyInt 1) = false /\
  sync_field target_true [] "a" (PyInt 1) = Ok (target_true, []).
Proof. repeat split; try reflexivity. discriminate. Qed.

Lemma labels_supersede_witness :
  Plain.run template_path target_path start = (Ok 1, after) /\
  exists d' f' v',
    document Plain.json_load (files after) target_path = Some d' /\
    fields_of d' = Some f' /\
    Dict.lookup f' "name" = Some v' /\
    (v' = PyStr "Full Name" \/
     (Dict.lookup [("name", PyStr "Full Nm"); ("email", PyStr "Email Address");
                   ("phone", PyStr "Phone")] "name" = Some v' /\
      py_eq v' (PyStr "Full Name") = true)) /\
    (py_eq (PyStr "Full Name") (PyStr "Full Name") = true ->
     py_eq v' (PyStr "Full Name") = true) /\
    (is_nan (PyStr "Full Name") = false ->
     py_eq v' (PyStr "Full Name") = true) /\
    (forall s, PyStr "Full Name" = PyStr s -> v' = PyStr "Full Name").
Proof.
  assert (Plain.run template_path target_path start = (Ok 1, after)) as R
    by reflexivity.
  split; [exact R|].
  exact (labels_supersede _ _ _ _ Plain_load_wf Plain_load_dump
           template_path target_path start after 1 template
           [("name", PyStr "Full Name"); ("email", PyStr "Email Address")]
           target _ "name" (PyStr "Full Name")
           R eq_refl eq_refl eq_refl eq_refl eq_refl eq_refl).
Defined.

(** C2 as stated fails: the label of [a] is NaN, the run returns after
    it wrote NaN to the field [a] of the target, and that value does not
    compare equal to the label, since NaN equals nothing. *)
Lemma labels_supersede_counterexample :
  Plain.run template_path target_path start_nan = (Ok 1, after_nan) /\
  en_us_of template_nan = Ok (PyDict [("a", PyFloat S754_nan)]) /\
  fields_of target_a = Some [("a", PyStr "x")] /\
  document Plain.json_load (files after_nan) target_path
    = Some (PyDict [("fields", PyDict [("a", PyFloat S754_nan)])]) /\
  py_eq (PyFloat S754_nan) (PyFloat S754_nan) = false.
Proof. repeat split; reflexivity. Qed.

Lemma structural_error_is_reported_witness :
  (exists n w',
     Plain.run template_path target_path start_no_en_us = (Ok n, w') /\
     n < 0 /\ files w' = files start_no_en_us) /\
  exists w',
    Plain.run_main ["sync_translations.py"; "webform-template-123.json";
                    "field_translations.json"] start_no_en_us = (1, w') /\
    files w' = files start_no_en_us.
Proof.
  destruct (structural_error_is_reported _ Plain.empty_text
              Plain.json_load Plain.json_dump
              template_path target_path start_no_en_us
              template_no_en_us target [("fr-fr", PyDict [])]
              eq_refl eq_refl eq_refl (or_introl eq_refl)) as [H1 H2].
  split; [exact H1|].
  exact (H2 "sync_translations.py" "webform-template-123.json"
            "field_translations.json" eq_refl eq_refl).
Defined.

Lemma backup_is_pre_run_target_witness :
  Plain.run template_path target_path start = (Ok 1, after) /\
  backup_path target_path = Path "field_translations.backup.json" /\
  exists original,
    document Plain.json_load (files start) target_path = Some original /\
    files after (backup_path target_path)
      = Some (File (Plain.json_dump original)) /\
    document Plain.json_load (files after) (backup_path target_path)
      = Some original /\
    parent (backup_path target_path) = parent target_path /\
    name (backup_path target_path)
      = (stem target_path ++ ".backup" ++ suffix target_path)%string /\
    (stem target_path ++ suffix target_path)%string = name target_path /\
    (suffix target_path = "" \/
     exists ext, suffix target_path = String "." ext /\ ext <> "" /\
                 has_char "." ext = false).
Proof.
  assert (Plain.run template_path target_path start = (Ok 1, after)) as R
    by reflexivity.
  split; [exact R|]. split; [reflexivity|].
  exact (backup_is_pre_run_target _ _ _ _ Plain_load_wf Plain_load_dump
           template_path target_path start after 1 R eq_refl eq_refl).
Defined.

Lemma no_update_no_write_witness :
  Plain.run template_path target_path start_in_sync
    = (Ok 0, snd (Plain.run template_path target_path start_in_sync)) /\
  files (snd (Plain.run template_path target_path start_in_sync))
    = files start_in_sync.
Proof.
  assert (Plain.run template_path target_path start_in_sync
          = (Ok 0, snd (Plain.run template_path target_path start_in_sync)))
    as R by reflexivity.
  split; [exact R|].
  exact (no_update_no_write _ _ _ _ template_path target_path
           start_in_sync _ R).
Defined.

Lemma other_sections_preserved_witness :
  Plain.run template_path target_path start = (Ok 1, after) /\
  exists d d',
    document Plain.json_load (files start) target_path = Some d /\
    document Plain.json_load (files after) target_path = Some d' /\
    sections_of d' = sections_of d /\
    (forall k, k <> "fields" -> section_of d' k = section_of d k) /\
    (fields_of d = None -> d' = d) /\
    (forall f, fields_of d = Some f ->
       exists f', fields_of d' = Some f' /\ Dict.keys f' = Dict.keys f).
Proof.
  assert (Plain.run template_path target_path start = (Ok 1, after)) as R
    by reflexivity.
  split; [exact R|].
  exact (other_sections_preserved _ _ _ _ Plain_load_wf Plain_load_dump
           template_path target_path start after 1 R).
Defined.



(** A template at the backup path of the target is overwritten by the
    first run with the backup, and the second run then takes its labels
    from what the target was. *)
Example template_at_backup_path :
  template_at_backup = backup_path target_path /\
  fst (Plain.run template_at_backup target_path start_at_backup) = Ok 1 /\
  document Plain.json_load
    (files (snd (Plain.run template_at_backup target_path start_at_backup)))
    template_at_backup = Some target_with_labels /\
  fst (Plain.run template_at_backup target_path
         (snd (Plain.run template_at_backup target_path start_at_backup)))
  = Ok 1.
Proof. repeat split; reflexivity. Qed.

Lemma missing_fields_is_no_error_witness :
  (exists w',
     Plain.run template_path target_path start_no_fields = (Ok 0, w') /\
     files w' = files start_no_fields) /\
  exists w',
    Plain.run_main ["sync_translations.py"; "webform-template-123.json";
                    "field_translations.json"] start_no_fields = (0, w') /\
    files w' = files start_no_fields.
Proof.
  assert ([("name", PyStr "Full Name"); ("email", PyStr "Email Address")]
          <> []) as Hne by discriminate.
  destruct (missing_fields_is_no_error _ Plain.empty_text
              Plain.json_load Plain.json_dump
              template_path target_path start_no_fields
              template [("options", PyDict [("yes", PyStr "Yes")])]
              [("name", PyStr "Full Name"); ("email", PyStr "Email Address")]
              eq_refl eq_refl eq_refl Hne eq_refl) as [_ [H1 H2]].
  split; [exact H1|].
  exact (H2 "sync_translations.py" "webform-template-123.json"
            "field_translations.json" eq_refl eq_refl).
Defined.

Lemma exit_status_witness :
  Plain.run_main ["sync_translations.py"; "webform-template-123.json"] start
    = (1, mkworld (files start) [Usage]) /\
  Plain.run_main ["sync_translations.py"; "missing.json";
                  "field_translations.json"] start
    = (1, mkworld (files start) [Webform_not_found (Path "missing.json")]) /\
  Plain.run_main ["sync_translations.py"; "webform-template-123.json";
                  "field_translations.json"] start
    = (0, after).
Proof.
  split; [|split].
  - apply (proj1 (exit_status _ Plain.empty_text Plain.json_load
                    Plain.json_dump
                    ["sync_translations.py"; "webform-template-123.json"]
                    start)).
    simpl. discriminate.
  - apply (proj1 (proj2 (exit_status _ Plain.empty_text Plain.json_load
                    Plain.json_dump _ start) _ _ _ eq_refl)).
    reflexivity.
  - assert (forall arg, exists_ (files start) (Path arg) = true ->
                         files start (Path arg) <> None) as Hex.
    { intros arg. unfold exists_.
      destruct (files start (Path arg)); [discriminate|].
      intros E. discriminate E. }
    apply (proj1 (proj2 (proj2 (proj2 (exit_status _ Plain.empty_text
                    Plain.json_load Plain.json_dump _ start)
                    _ _ _ eq_refl))
                    (Hex "webform-template-123.json" eq_refl)
                    (Hex "field_translations.json" eq_refl))
             1 after eq_refl).
    lia.
Defined.

(** The run of the specification's example, message by message. *)
Example example_console :
  console after =
  [Loading_webform template_path;
   Loading_translations target_path;
   Found_labels 2;
   Updating_fields [mkupdate "name" (PyStr "Full Nm") (PyStr "Full Name")];
   Creating_backup (Path "field_translations.backup.json");
   Writing_updates target_path;
   Ok_updated 1].
Proof. reflexivity. Qed.

(** [fields] is a list that holds the key: the list has no [get]. *)
Example fields_list_raises :
  fst (Plain.run template_path target_path
         (start_with template target_fields_list)) = Raise AttributeError /\
  fst (Plain.run_main ["sync_translations.py"; "webform-template-123.json";
                       "field_translations.json"]
         (start_with template target_fields_list)) = 1.
Proof. split; reflexivity. Qed.

(** The target is a list: it has no [get]. *)
Example target_list_raises :
  fst (Plain.run template_path target_path (start_with template target_list))
  = Raise AttributeError.
Proof. reflexivity. Qed.

(** [en-us] is a non-empty list: it has a length and no [items]. *)
Example en_us_list_raises :
  Plain.run template_path target_path (start_with template_en_us_list target)
  = (Raise AttributeError,
     mkworld (files (start_with template_en_us_list target))
       [Loading_webform template_path; Loading_translations target_path;
        Found_labels 1]).
Proof. reflexivity. Qed.

(** A directory at the backup path: the run raises before it writes. *)
Example backup_dir_raises :
  fst (Plain.run template_path target_path start_backup_dir)
    = Raise IsADirectoryError /\
  files (snd (Plain.run template_path target_path start_backup_dir))
    = files start_backup_dir /\
  fst (Plain.run_main ["sync_translations.py"; "webform-template-123.json";
                       "field_translations.json"] start_backup_dir) = 1.
Proof. repeat split; reflexivity. Qed.

(** Suffixes as [pathlib] splits them. *)
Example backup_path_examples :
  backup_path (Path "dir/translations.json")
    = Path "dir/translations.backup.json" /\
  backup_path (Path "/srv//i18n/./labels.tar.gz")
    = Path "/srv/i18n/labels.tar.backup.gz" /\
  backup_path (Path "labels") = Path "labels.backup" /\
  backup_path (Path ".labels") = Path ".labels.backup".
Proof. repeat split; reflexivity. Qed.

End Runs.

(** * The rest of the behaviour *)

(** ** The loop in closed form *)

Section LoopCoverage.
Import Dict DictFacts ValueFacts.

Lemma mem_set_other {A} (d : list (string * A)) k k' v :
  k <> k' -> mem (set d k v) k' = mem d k'.
Proof. intros H. unfold mem. now rewrite lookup_set_other. Qed.

Lemma get_set_other {A} (d : list (string * A)) k k' v dflt :
  k <> k' -> get (set d k v) k' dflt = get d k' dflt.
Proof. intros H. unfold get. now rewrite lookup_set_other. Qed.

(** The loop with any list of updates so far: the records it adds are
    those of the entries whose key is a field with an unequal value, in
    the order of the entries. *)
Lemma sync_fields_records items :
  NoDup (keys items) ->
  forall t f ups,
  lookup t "fields" = Some (PyDict f) ->
  exists tr',
    sync_fields items (PyDict t) ups =
    Ok (tr',
        (ups ++
         map (fun kv => mkupdate (fst kv) (get f (fst kv) PyNone) (snd kv))
           (filter (fun kv => mem f (fst kv) &&
                              py_ne (get f (fst kv) PyNone) (snd kv))
              items))%list).
Proof.
  induction items as [|[k0 v0] items IH]; intros Hnd t f ups Hl.
  - exists (PyDict t). simpl. now rewrite app_nil_r.
  - inversion Hnd as [|? ? Hnotin Hnd']; subst.
    cbn [sync_fields]. rewrite (LoopFacts.sync_field_dict t f ups k0 v0 Hl).
    cbn [filter fst snd].
    destruct (mem f k0 && py_ne (get f k0 PyNone) v0) eqn:C.
    + assert (lookup (set t "fields" (PyDict (set f k0 v0))) "fields"
              = Some (PyDict (set f k0 v0))) as Hl1
        by apply lookup_set_same.
      destruct (IH Hnd' _ _ (ups ++ [mkupdate k0 (get f k0 PyNone) v0])%list
                  Hl1) as [tr' Hrun].
      exists tr'. rewrite Hrun. f_equal. f_equal.
      rewrite <- app_assoc. cbn [map fst snd app]. f_equal. f_equal.
      assert (forall kv, In kv items -> fst kv <> k0) as Hfresh.
      { intros [k v] Hin E. simpl in E. subst k. apply Hnotin.
        apply in_map_iff. now exists (k0, v). }
      rewrite (filter_ext_in
                 (fun kv => mem (set f k0 v0) (fst kv) &&
                            py_ne (get (set f k0 v0) (fst kv) PyNone) (snd kv))
                 (fun kv => mem f (fst kv) &&
                            py_ne (get f (fst kv) PyNone) (snd kv))).
      * apply map_ext_in. intros kv Hin. apply filter_In in Hin.
        destruct Hin as [Hin _].
        rewrite get_set_other; auto. intros E. now apply (Hfresh kv Hin).
      * intros kv Hin.
        rewrite mem_set_other, get_set_other; auto;
          intros E; now apply (Hfresh kv Hin).
    + destruct (IH Hnd' t f ups Hl) as [tr' Hrun].
      exists tr'. exact Hrun.
Qed.

(** X1. On a target with a [fields] mapping the loop returns, and its
    update records are, in the order of the [en-us] entries, one for
    each entry whose key is a field with a value unequal to the label:
    the key, the value the field had, and the label. *)
Theorem update_records_in_order items t f :
  NoDup (keys items) ->
  lookup t "fields" = Some (PyDict f) ->
  exists tr',
    sync_fields items (PyDict t) [] =
    Ok (tr',
        map (fun kv => mkupdate (fst kv) (get f (fst kv) PyNone) (snd kv))
          (filter (fun kv => mem f (fst kv) &&
                             py_ne (get f (fst kv) PyNone) (snd kv))
             items)).
Proof.
  intros Hnd Hl.
  destruct (sync_fields_records items Hnd t f [] Hl) as [tr' Hrun].
  exists tr'. exact Hrun.
Qed.

Lemma lookup_map_values {A} (g : string -> A -> A) (d : list (string * A)) k :
  lookup (map (fun kv => (fst kv, g (fst kv) (snd kv))) d) k =
  match lookup d k with Some v => Some (g k v) | None => None end.
Proof.
  induction d as [|[k0 v0] d IH]; simpl; auto.
  destruct (String.eqb k0 k) eqn:E; auto.
  apply String.eqb_eq in E. now subst.
Qed.

Lemma keys_map_values {A} (g : string -> A -> A) (d : list (string * A)) :
  keys (map (fun kv => (fst kv, g (fst kv) (snd kv))) d) = keys d.
Proof. unfold keys. rewrite map_map. reflexivity. Qed.

(** Two dicts with the same keys in the same order and the same value
    at every key are the same. *)
Lemma dict_ext {A} (a b : list (string * A)) :
  NoDup (keys a) -> keys a = keys b ->
  (forall k, lookup a k = lookup b k) -> a = b.
Proof.
  revert b. induction a as [|[k v] a IH]; intros [|[k' v'] b] Hnd Hk Hl;
    try discriminate; auto.
  unfold keys in Hk. simpl in Hk. inversion Hk as [[Hk1 Hk2]]. subst k'.
  inversion Hnd as [|? ? Hnotin Hnd']; subst.
  pose proof (Hl k) as Hv. simpl in Hv. rewrite String.eqb_refl in Hv.
  inversion Hv; subst v'. f_equal.
  apply IH; auto.
  intros k1. pose proof (Hl k1) as Hl1. simpl in Hl1.
  destruct (String.eqb k k1) eqn:E; auto.
  apply String.eqb_eq in E. subst k1.
  assert (lookup a k = None) as Ha.
  { destruct (lookup a k) eqn:L; auto. exfalso. apply Hnotin.
    apply mem_In. unfold mem. now rewrite L. }
  assert (lookup b k = None) as Hb.
  { destruct (lookup b k) eqn:L; auto. exfalso. apply Hnotin.
    change (In k (keys a)). unfold keys. rewrite Hk2. apply mem_In.
    unfold mem. now rewrite L. }
  congruence.
Qed.

(** X2. The working copy the loop leaves is the document with, in
    [fields], every entry at its place, its value replaced by the label
    of its key when [en-us] has one that compares unequal to it, and
    kept otherwise. *)
Theorem working_copy_closed_form items t f :
  NoDup (keys items) ->
  NoDup (keys f) ->
  lookup t "fields" = Some (PyDict f) ->
  exists ups,
    sync_fields items (PyDict t) [] =
    Ok (PyDict
          (set t "fields"
             (PyDict
                (map (fun kv =>
                        (fst kv,
                         match lookup items (fst kv) with
                         | Some label =>
                             if py_eq (snd kv) label then snd kv else label
                         | None => snd kv
                         end)) f))),
        ups).
Proof.
  intros Hnd Hnf Hl.
  destruct (LoopFacts.sync_fields_dict items Hnd t f [] Hl)
    as [f' [ups [Hrun [Hkeys [Hframe [Hval _]]]]]].
  exists ups. simpl in Hrun. rewrite Hrun.
  set (g := fun (k : string) (cur : value) =>
              match lookup items k with
              | Some label => if py_eq cur label then cur else label
              | None => cur
              end).
  assert (f' = map (fun kv => (fst kv, g (fst kv) (snd kv))) f) as Hf'.
  { apply dict_ext.
    - now rewrite Hkeys.
    - now rewrite keys_map_values.
    - intros k. rewrite lookup_map_values. unfold g.
      destruct (lookup items k) as [label|] eqn:Hi.
      + destruct (lookup f k) as [cur|] eqn:Hc.
        * now rewrite (Hval k label cur (lookup_In _ _ _ Hi) Hc).
        * destruct (lookup f' k) eqn:Hc'; auto.
          assert (mem f k = true) as Hm.
          { apply mem_In. rewrite <- Hkeys. apply mem_In. unfold mem.
            now rewrite Hc'. }
          unfold mem in Hm. rewrite Hc in Hm. discriminate.
      + rewrite Hframe.
        * destruct (lookup f k); auto.
        * intros Hin. apply mem_In in Hin. unfold mem in Hin.
          rewrite Hi in Hin. discriminate. }
  rewrite Hf'. reflexivity.
Qed.

(** X3. When [fields] is there and is not a mapping the loop makes no
    update: it returns the document as it is when no [en-us] key is
    contained in [fields], and raises otherwise, a [TypeError] when
    [fields] is no container ([null], a boolean, a number), an
    [AttributeError] when it is a list holding a key or a string of
    which a key is a substring. *)
Theorem fields_not_a_mapping items t x ups :
  lookup t "fields" = Some x ->
  (forall f, x <> PyDict f) ->
  sync_fields items (PyDict t) ups =
  if forallb (fun kv => match py_contains x (fst kv) with
                        | Ok false => true
                        | _ => false
                        end) items
  then Ok (PyDict t, ups)
  else Raise (match x with
              | PyList _ | PyStr _ => AttributeError
              | _ => TypeError
              end).
Proof.
  intros Hl Hx. induction items as [|[k v] items IH]; auto.
  cbn [sync_fields forallb fst]. unfold sync_field, get. rewrite Hl.
  destruct x as [| b | z | y | s | l | f]; cbn [py_contains];
    try reflexivity.
  - destruct (is_substring k s); [reflexivity | exact IH].
  - destruct (existsb (fun x => py_eq x (PyStr k)) l);
      [reflexivity | exact IH].
  - exfalso. eapply Hx. reflexivity.
Qed.

End LoopCoverage.

(** ** Every outcome of a run *)

Section RunCoverage.

Variable text : Type.
Variable empty_text : text.
Variable json_load : text -> option value.
Variable json_dump : value -> text.

Local Abbreviation sync :=
  (sync_translations text empty_text json_load json_dump).
Local Abbreviation run_main :=
  (main text empty_text json_load json_dump).
Local Abbreviation doc := (document json_load).

Lemma load_file_same p (w w' : world text) r :
  load_file text json_load p w = (r, w') -> w' = w.
Proof.
  unfold load_file. destruct (files w p) as [[t|]|];
    try (intros H; now inversion H).
  destruct (json_load t); intros H; now inversion H.
Qed.

(** X4. [main] exits with 0 or with 1, and with 0 exactly when it was
    given two arguments and [sync_translations] returned, on the two
    paths, a count that is not negative. *)
Theorem exit_zero_iff (argv : list string) (w : world text) :
  (fst (run_main argv w) = 0 \/ fst (run_main argv w) = 1) /\
  (fst (run_main argv w) = 0 <->
   exists prog arg1 arg2 n w',
     argv = [prog; arg1; arg2] /\
     sync (Path arg1) (Path arg2) w = (Ok n, w') /\ 0 <= n).
Proof.
  unfold main.
  destruct argv as [|prog [|arg1 [|arg2 [|arg3 argv]]]];
    try (split; [right; reflexivity|];
         split; [discriminate|];
         intros [p [a1 [a2 [n [w' [E _]]]]]]; discriminate E).
  destruct (exists_ (files w) (Path arg1)) eqn:X1; cbn [negb].
  - destruct (exists_ (files w) (Path arg2)) eqn:X2; cbn [negb].
    + destruct (sync (Path arg1) (Path arg2) w) as [[n|e] w1] eqn:R.
      * destruct (Z.geb n 0) eqn:G; cbn [fst].
        -- split; [left; reflexivity|]. split; [|reflexivity].
           intros _. exists prog, arg1, arg2, n, w1.
           repeat split; auto. now apply Z.geb_le.
        -- split; [right; reflexivity|]. split; [discriminate|].
           intros [p [a1 [a2 [n' [w' [E [R' Hn]]]]]]].
           inversion E; subst. rewrite R in R'. inversion R'; subst.
           apply Z.geb_le in Hn. congruence.
      * cbn [fst]. split; [right; reflexivity|]. split; [discriminate|].
        intros [p [a1 [a2 [n' [w' [E [R' Hn]]]]]]].
        inversion E; subst. rewrite R in R'. discriminate.
    + cbn [fst]. split; [right; reflexivity|]. split; [discriminate|].
      intros [p [a1 [a2 [n' [w' [E [R' Hn]]]]]]].
      inversion E; subst. apply sync_translations_inv in R'.
      destruct R' as [wf0 [tr0 [en0 [_ [D2 _]]]]].
      apply document_exists in D2. congruence.
  - cbn [fst]. split; [right; reflexivity|]. split; [discriminate|].
    intros [p [a1 [a2 [n' [w' [E [R' Hn]]]]]]].
    inversion E; subst. apply sync_translations_inv in R'.
    destruct R' as [wf0 [tr0 [en0 [D1 _]]]].
    apply document_exists in D1. congruence.
Qed.

(** X5. With both documents loaded and an [en-us] entry read, the run
    returns [-1] exactly when the entry is falsy: absent or [{}], and
    also [null], [false], [0], an empty string, an empty list. It then
    prints the two loading messages and the error, and writes nothing.
    No other negative number is ever returned. *)
Theorem minus_one_iff_falsy wp tp (w : world text) webform translations en :
  doc (files w) wp = Some webform ->
  doc (files w) tp = Some translations ->
  en_us_of webform = Ok en ->
  (truthy en = false ->
   sync wp tp w =
   (Ok (-1),
    mkworld (files w)
      (console w ++ [Loading_webform wp; Loading_translations tp;
                     Error_no_en_us])%list)) /\
  (forall n w', sync wp tp w = (Ok n, w') -> n < 0 ->
     truthy en = false /\ n = -1).
Proof.
  intros D1 D2 E. split.
  - intros T.
    unfold sync_translations, bind, print, lift, ret. cbn.
    rewrite (load_file_ok text json_load wp _ webform) by exact D1. cbn.
    rewrite (load_file_ok text json_load tp _ translations) by exact D2.
    cbn. unfold en_us_of in E.
    destruct (py_get webform _ _) as [ft|e]; [|discriminate].
    rewrite E, T. cbn. now rewrite <- !app_assoc.
  - intros n w' R Hn. apply sync_translations_inv in R.
    destruct R as [webform0 [d0 [en0 [D1' [_ [E' R]]]]]].
    rewrite D1 in D1'. inversion D1'; subst webform0.
    rewrite E in E'. inversion E'; subst en0.
    destruct R as [[T [Hm _]] | [items [tr' [ups [_ [_ [_ [Hlen _]]]]]]]];
      [auto | lia].
Qed.

(** X6. An [en-us] entry that is truthy and not a mapping makes the run
    raise, and nothing is written: a [TypeError] for [true] or a number
    other than zero, which have no length, an [AttributeError] for a
    non-empty string or list, which have no [items]. *)
Theorem en_us_not_a_mapping_raises wp tp (w : world text)
    webform translations en :
  doc (files w) wp = Some webform ->
  doc (files w) tp = Some translations ->
  en_us_of webform = Ok en ->
  truthy en = true ->
  (forall items, en <> PyDict items) ->
  exists w',
    sync wp tp w =
    (Raise (match en with
            | PyStr _ | PyList _ => AttributeError
            | _ => TypeError
            end), w') /\
    files w' = files w.
Proof.
  intros D1 D2 E T Hen.
  unfold sync_translations, bind, print, lift, ret. cbn.
  rewrite (load_file_ok text json_load wp _ webform) by exact D1. cbn.
  rewrite (load_file_ok text json_load tp _ translations) by exact D2.
  cbn. unfold en_us_of in E.
  destruct (py_get webform _ _) as [ft|e]; [|discriminate].
  rewrite E, T. cbn.
  destruct en as [| b | z | x | s | l | d]; cbn;
    try (eexists; split; reflexivity).
  exfalso. eapply Hen. reflexivity.
Qed.

(** X7. What a run that returns has printed, after what was printed
    before it: the two loading messages, then either the error of the
    missing labels (and [-1] is returned), or the number of [en-us]
    labels followed by the message that all is in sync (and [0] is
    returned), or the number of labels, the update records of the loop,
    the backup path, the target path and the number of updates, which
    is the positive number returned. *)
Theorem report_of_a_run wp tp (w w' : world text) n :
  sync wp tp w = (Ok n, w') ->
  exists rest,
    console w' =
    (console w ++
     Loading_webform wp :: Loading_translations tp :: rest)%list /\
    ((n = -1 /\ rest = [Error_no_en_us]) \/
     (exists webform translations items tr' ups,
        doc (files w) wp = Some webform /\
        doc (files w) tp = Some translations /\
        en_us_of webform = Ok (PyDict items) /\
        sync_fields items translations [] = Ok (tr', ups) /\
        n = Z.of_nat (List.length ups) /\
        ((ups = [] /\
          rest = [Found_labels (List.length items); Ok_in_sync]) \/
         (ups <> [] /\
          rest = [Found_labels (List.length items); Updating_fields ups;
                  Creating_backup (backup_path tp); Writing_updates tp;
                  Ok_updated (List.length ups)])))).
Proof.
  unfold sync_translations, bind, print, lift, ret. cbn.
  intros H.
  destruct (load_file _ _ wp _) as [[webform|e] w1] eqn:L1; [|discriminate].
  apply (load_file_inv text json_load) in L1. cbn in L1.
  destruct L1 as [D1 ->].
  destruct (load_file _ _ tp _) as [[translations|e] w2] eqn:L2;
    [|discriminate].
  apply (load_file_inv text json_load) in L2. cbn in L2.
  destruct L2 as [D2 ->].
  assert (exists en, en_us_of webform = Ok en /\
            match py_get webform "formTranslations" (PyDict []) with
            | Ok ft => py_get ft "en-us" (PyDict [])
            | Raise e => Raise e
            end = Ok en) as [en [E E']].
  { unfold en_us_of.
    destruct (py_get webform _ _) as [ft|e]; [|discriminate].
    destruct (py_get ft _ _) as [en|e]; [|discriminate]. eauto. }
  destruct (py_get webform _ _) as [ft|e]; [|discriminate].
  rewrite E' in H.
  destruct (truthy en) eqn:T; cbn in H.
  - destruct (py_len en) as [len|e] eqn:Len; [|discriminate].
    destruct (py_items en) as [items|e] eqn:I; [|discriminate].
    destruct en; try discriminate. cbn in I, Len.
    inversion I; subst. inversion Len; subst.
    destruct (sync_fields items translations []) as [[tr' ups]|e] eqn:S;
      [|discriminate].
    destruct ups as [|u ups].
    + inversion H; subst. cbn. eexists. split.
      * rewrite <- !app_assoc. reflexivity.
      * right. exists webform, translations, items, tr', [].
        repeat (split; [assumption || reflexivity|]).
        left. split; reflexivity.
    + cbn in H.
      destruct (open_w _ _ (backup_path tp) _) as [[[]|e] w3] eqn:O1;
        [|discriminate].
      assert (console w3 =
              (console w ++
               [Loading_webform wp; Loading_translations tp;
                Found_labels (List.length items);
                Updating_fields (u :: ups);
                Creating_backup (backup_path tp)])%list) as C3.
      { unfold open_w in O1. cbn in O1.
        destruct (files w (backup_path tp)) as [[t|]|];
          inversion O1; subst; cbn; now rewrite <- !app_assoc. }
      destruct (load_file _ _ tp w3) as [[original|e] w4] eqn:L3;
        [|discriminate].
      pose proof (load_file_same _ _ _ _ L3). subst w4. cbn in H.
      destruct (open_w _ _ tp _) as [[[]|e] w5] eqn:O2; [|discriminate].
      assert (console w5 = (console w3 ++ [Writing_updates tp])%list) as C5.
      { unfold open_w in O2. cbn in O2.
        destruct (write (files w3) (backup_path tp) (json_dump original) tp)
          as [[t|]|]; inversion O2; subst; reflexivity. }
      inversion H; subst. cbn. rewrite C5, C3. eexists. split.
      * rewrite <- !app_assoc. reflexivity.
      * right. exists webform, translations, items, tr', (u :: ups).
        repeat (split; [assumption || reflexivity|]).
        right. split; [discriminate | reflexivity].
  - inversion H; subst. cbn. eexists. split.
    + rewrite <- !app_assoc. reflexivity.
    + left. split; reflexivity.
Qed.

End RunCoverage.

(** ** The rest of the behaviour at work *)

Section MoreRuns.
Import Scenario.

Lemma update_records_in_order_witness :
  exists tr',
    sync_fields [("name", PyStr "Full Name"); ("email", PyStr "Email Address")]
      target [] =
    Ok (tr', [mkupdate "name" (PyStr "Full Nm") (PyStr "Full Name")]).
Proof.
  assert (NoDup (Dict.keys [("name", PyStr "Full Name");
                            ("email", PyStr "Email Address")])) as Hnd
    by (apply ValueFacts.distinct_NoDup; reflexivity).
  destruct (update_records_in_order
              [("name", PyStr "Full Name"); ("email", PyStr "Email Address")]
              [("fields",
                PyDict [("name", PyStr "Full Nm");
                        ("email", PyStr "Email Address");
                        ("phone", PyStr "Phone")]);
               ("options", PyDict [("yes", PyStr "Yes")])]
              [("name", PyStr "Full Nm"); ("email", PyStr "Email Address");
               ("phone", PyStr "Phone")]
              Hnd eq_refl) as [tr' H].
  exists tr'. exact H.
Defined.

Lemma working_copy_closed_form_witness :
  exists ups,
    sync_fields [("name", PyStr "Full Name"); ("email", PyStr "Email Address")]
      target [] =
    Ok (PyDict
          [("fields",
            PyDict [("name", PyStr "Full Name");
                    ("email", PyStr "Email Address");
                    ("phone", PyStr "Phone")]);
           ("options", PyDict [("yes", PyStr "Yes")])],
        ups).
Proof.
  assert (NoDup (Dict.keys [("name", PyStr "Full Name");
                            ("email", PyStr "Email Address")])) as Hnd
    by (apply ValueFacts.distinct_NoDup; reflexivity).
  assert (NoDup (Dict.keys [("name", PyStr "Full Nm");
                            ("email", PyStr "Email Address");
                            ("phone", PyStr "Phone")])) as Hnf
    by (apply ValueFacts.distinct_NoDup; reflexivity).
  destruct (working_copy_closed_form
              [("name", PyStr "Full Name"); ("email", PyStr "Email Address")]
              [("fields",
                PyDict [("name", PyStr "Full Nm");
                        ("email", PyStr "Email Address");
                        ("phone", PyStr "Phone")]);
               ("options", PyDict [("yes", PyStr "Yes")])]
              [("name", PyStr "Full Nm"); ("email", PyStr "Email Address");
               ("phone", PyStr "Phone")]
              Hnd Hnf eq_refl) as [ups H].
  exists ups. exact H.
Defined.

Lemma fields_not_a_mapping_witness :
  sync_fields [("name", PyStr "Full Name"); ("email", PyStr "Email Address")]
    target_fields_list [] = Raise AttributeError /\
  sync_fields [("email", PyStr "Email Address")] target_fields_list []
    = Ok (target_fields_list, []).
Proof.
  assert (forall f, PyList [PyStr "name"] <> PyDict f) as Hx
    by (intros f; discriminate).
  split.
  - exact (fields_not_a_mapping
             [("name", PyStr "Full Name"); ("email", PyStr "Email Address")]
             [("fields", PyList [PyStr "name"])] (PyList [PyStr "name"]) []
             eq_refl Hx).
  - exact (fields_not_a_mapping
             [("email", PyStr "Email Address")]
             [("fields", PyList [PyStr "name"])] (PyList [PyStr "name"]) []
             eq_refl Hx).
Defined.

Lemma minus_one_iff_falsy_witness :
  Plain.run template_path target_path start_no_en_us =
  (Ok (-1),
   mkworld (files start_no_en_us)
     [Loading_webform template_path; Loading_translations target_path;
      Error_no_en_us]).
Proof.
  exact (proj1 (minus_one_iff_falsy _ Plain.empty_text Plain.json_load
                  Plain.json_dump template_path target_path start_no_en_us
                  template_no_en_us target (PyDict [])
                  eq_refl eq_refl eq_refl) eq_refl).
Defined.

Lemma en_us_not_a_mapping_raises_witness :
  exists w',
    Plain.run template_path target_path
      (start_with template_en_us_list target) = (Raise AttributeError, w') /\
    files w' = files (start_with template_en_us_list target).
Proof.
  assert (forall items, PyList [PyStr "name"] <> PyDict items) as Hen
    by (intros items; discriminate).
  exact (en_us_not_a_mapping_raises _ Plain.empty_text Plain.json_load
           Plain.json_dump template_path target_path
           (start_with template_en_us_list target)
           template_en_us_list target (PyList [PyStr "name"])
           eq_refl eq_refl eq_refl eq_refl Hen).
Defined.

Lemma report_of_a_run_witness :
  Plain.run template_path target_path start = (Ok 1, after) /\
  exists rest,
    console after =
    (console start ++
     Loading_webform template_path :: Loading_translations target_path ::
     rest)%list /\
    rest =
    [Found_labels 2;
     Updating_fields [mkupdate "name" (PyStr "Full Nm") (PyStr "Full Name")];
     Creating_backup (backup_path target_path);
     Writing_updates target_path; Ok_updated 1].
Proof.
  assert (Plain.run template_path target_path start = (Ok 1, after)) as R
    by reflexivity.
  split; [exact R|].
  destruct (report_of_a_run _ Plain.empty_text Plain.json_load
              Plain.json_dump template_path target_path start after 1 R)
    as [rest [Hc _]].
  exists rest. split; [exact Hc|].
  vm_compute in Hc. inversion Hc. reflexivity.
Defined.

(** [len] counts code points, not bytes. *)
Example code_points_example :
  code_points "café" = 4%nat /\ String.length "café" = 5%nat.
Proof. split; reflexivity. Qed.

(** [1 == 1.0], the two zeros are equal, NaN is not. *)
Example float_equality :
  py_eq (PyInt 1) (PyFloat (S754_finite false 4503599627370496 (-52))) = true /\
  py_eq (PyBool true) (PyFloat (S754_finite false 4503599627370496 (-52)))
    = true /\
  py_eq (PyFloat (S754_zero false)) (PyFloat (S754_zero true)) = true /\
  py_eq (PyFloat S754_nan) (PyFloat S754_nan) = false.
Proof. repeat split; reflexivity. Qed.

End MoreRuns.
